(** * Language-server session proxy and export dependency checker

    A shallow embedding of

      - [src/client/activation/node/languageServerProxy.ts]
        (class [NodeLanguageServerProxy]) and
      - [src/client/datascience/export/exportManagerDependencyChecker.ts]
        (class [ExportManagerDependencyChecker]).

    The proxy is asynchronous: a call of [start] runs until its next [await],
    and other calls ([start], [dispose]) and external events (a promise of a
    collaborator settles, a timer fires, the client finishes its handshake)
    happen in between.  It is modelled as a machine whose state holds the
    fields of the proxy, the store of deferred objects, the clients, and one
    continuation per pending call of [start]; an action runs one synchronous
    block of the source.  Every call to a collaborator is recorded in a trace. *)

From Stdlib Require Import Ascii.
From stdpp Require Import gmap strings list.

Set Default Proof Using "Type".

(** ** Results of calls: a value, or a thrown [Error] with its message *)

Inductive outcome (A : Type) : Type :=
| Returned (a : A)
| Threw (e : string).
Arguments Returned {A} a.
Arguments Threw {A} e.

(** Code that reads and writes a store [S] and may throw.  A throw keeps the
    writes made before it, as in the source language. *)
Definition Eff (S A : Type) : Type := S -> outcome A * S.

Definition ret {S A} (a : A) : Eff S A := fun s => (Returned a, s).
Definition throw {S A} (e : string) : Eff S A := fun s => (Threw e, s).
Definition bind {S A B} (m : Eff S A) (k : A -> Eff S B) : Eff S B :=
  fun s => match m s with
           | (Returned a, s') => k a s'
           | (Threw e, s') => (Threw e, s')
           end.
Definition try_catch {S A} (m : Eff S A) (h : string -> Eff S A) : Eff S A :=
  fun s => match m s with
           | (Returned a, s') => (Returned a, s')
           | (Threw e, s') => h e s'
           end.

Declare Scope eff_scope.
Delimit Scope eff_scope with eff.
Notation "'let!' x ':=' m 'in' k" := (bind m (fun x => k))
  (at level 10, x name, m at level 100, k at level 200) : eff_scope.
Notation "m ';;;' k" := (bind m (fun _ => k))
  (at level 100, k at level 200, right associativity) : eff_scope.
Open Scope eff_scope.

(** ** common/utils/async: [Deferred] *)

Module Async.

(** Modelled from the spec: the class behind [createDeferred] is not among
    the sources.  The readiness gate is "a promise-like object with states
    {pending, resolved, rejected}", "resolving/rejecting is one-shot per gate
    instance", with "a queryable already-settled predicate". *)
Inductive Deferred : Type :=
| Pending
| Resolved
| Rejected (reason : string).

Definition createDeferred : Deferred := Pending.

Definition resolve (d : Deferred) : Deferred :=
  match d with
  | Pending => Resolved
  | _ => d
  end.

Definition reject (reason : string) (d : Deferred) : Deferred :=
  match d with
  | Pending => Rejected reason
  | _ => d
  end.

Definition completed (d : Deferred) : bool :=
  match d with
  | Pending => false
  | _ => true
  end.

End Async.

(** ** activation/node/languageServerProxy.ts

    The decorators [traceDecorators.verbose], [traceDecorators.error] and
    [captureTelemetry] on [dispose], [start] and [serverReady] log and
    measure; they call the method at once and hand its result or exception
    on, and are left out.  [swallowExceptions] changes what the caller sees
    and is modelled. *)

Module Proxy.
Import Async.

Abbreviation ClientId := nat.
Abbreviation GateId := nat.
Abbreviation StrategyId := nat.
Abbreviation TaskId := nat.

(** [Resource] is [Uri | undefined]; the interpreter is passed through to the
    factory; of [LanguageClientOptions] only [connectionOptions] is touched. *)
Abbreviation Resource := (option string).
Abbreviation PythonInterpreter := string.
Record LanguageClientOptions : Type := mkOptions {
  connectionOptions : option StrategyId
}.

Global Instance LanguageClientOptions_eq_dec : EqDecision LanguageClientOptions.
Proof. solve_decision. Defined.

(** The entries [start] pushes on [disposables]: what [languageClient.start()]
    returns, the [ProgressReporting] object, and what
    [interpreterPathService.onDidChange] returns.  The first two carry the
    value of [this.languageClient] they were made from, the third the call
    of [start] that subscribed. *)
Inductive Disposable : Type :=
| TransportDisposable (c : ClientId)
| ProgressReporting (c : option ClientId)
| PathChangeSubscription (t : TaskId).

Global Instance Disposable_eq_dec : EqDecision Disposable.
Proof. solve_decision. Defined.

(** Calls that leave the proxy, in the order they are made.  Calls made by a
    call of [start] carry the name of that call. *)
Inductive Event : Type :=
| EvGetDirectory (t : TaskId)
| EvNewCancellationStrategy (t : TaskId) (s : StrategyId)
| EvCreateLanguageClient (t : TaskId) (r : Resource)
    (i : option PythonInterpreter) (o : LanguageClientOptions)
| EvClientStart (t : TaskId) (c : ClientId)
| EvSleep (t : TaskId) (ms : nat)
| EvGateResolve (t : TaskId) (g : GateId)
| EvGateReject (g : GateId) (reason : string)
| EvNewProgressReporting (t : TaskId) (c : option ClientId)
| EvOnDidChange (t : TaskId)
| EvOnTelemetry (t : TaskId) (c : ClientId)
| EvActivate (c : ClientId)
| EvTraceError (msg : string) (e : string)
| EvClientStop (c : ClientId)
| EvStrategyDispose (s : StrategyId)
| EvDisposableDispose (d : Disposable).

Global Instance Event_eq_dec : EqDecision Event.
Proof. solve_decision. Defined.

(** Where a call of [start] is suspended, or how its promise settled. *)
Inductive Kont : Type :=
| AwaitDirectory (r : Resource) (i : option PythonInterpreter)
    (o : LanguageClientOptions)                     (* line 90 *)
| AwaitFactory (r : Resource)                       (* line 96 *)
| AwaitSleep (r : Resource)                         (* line 150, called from 98 *)
| AwaitServerReady (r : Resource)                   (* line 98 *)
| AwaitTestServices                                 (* line 132 *)
| AwaitGate (g : GateId)                            (* line 134 *)
| Completed
| Failed (e : string).

Global Instance Kont_eq_dec : EqDecision Kont.
Proof. solve_decision. Defined.

(** The fields of [NodeLanguageServerProxy].  [startupCompleted] is a
    reference: the deferred object lives in the store [gates], so that a
    call awaiting [startupCompleted.promise] keeps the object it read even
    after [dispose] has replaced the field. *)
Record Fields : Type := mkFields {
  languageClient : option ClientId;
  startupCompleted : GateId;
  cancellationStrategy : option StrategyId;
  disposables : list Disposable;
  disposed : bool;
  lsVersion : option string
}.

Record State : Type := mkState {
  this : Fields;
  gates : list Deferred;          (* every deferred object created so far *)
  clients : list bool;            (* per client: is [initializeResult] set *)
  strategies : nat;               (* cancellation strategies constructed *)
  tasks : gmap TaskId Kont;       (* the calls of [start] *)
  trace : list Event
}.

(** What the collaborators answer. *)
Record Env : Type := mkEnv {
  inExperiment : bool;
  downloadLanguageServer : Resource -> bool;
  dispose_throws : Disposable -> option string;
  activate_rejects : option string
}.

(** Field updates. *)
Definition set_languageClient (v : option ClientId) (p : Fields) : Fields :=
  mkFields v (startupCompleted p) (cancellationStrategy p) (disposables p)
           (disposed p) (lsVersion p).
Definition set_startupCompleted (v : GateId) (p : Fields) : Fields :=
  mkFields (languageClient p) v (cancellationStrategy p) (disposables p)
           (disposed p) (lsVersion p).
Definition set_cancellationStrategy (v : option StrategyId) (p : Fields) : Fields :=
  mkFields (languageClient p) (startupCompleted p) v (disposables p)
           (disposed p) (lsVersion p).
Definition set_disposables (v : list Disposable) (p : Fields) : Fields :=
  mkFields (languageClient p) (startupCompleted p) (cancellationStrategy p) v
           (disposed p) (lsVersion p).
Definition set_disposed (v : bool) (p : Fields) : Fields :=
  mkFields (languageClient p) (startupCompleted p) (cancellationStrategy p)
           (disposables p) v (lsVersion p).
Definition set_lsVersion (v : option string) (p : Fields) : Fields :=
  mkFields (languageClient p) (startupCompleted p) (cancellationStrategy p)
           (disposables p) (disposed p) v.

Definition with_this (f : Fields -> Fields) (st : State) : State :=
  mkState (f (this st)) (gates st) (clients st) (strategies st) (tasks st) (trace st).
Definition with_gates (f : list Deferred -> list Deferred) (st : State) : State :=
  mkState (this st) (f (gates st)) (clients st) (strategies st) (tasks st) (trace st).
Definition with_clients (f : list bool -> list bool) (st : State) : State :=
  mkState (this st) (gates st) (f (clients st)) (strategies st) (tasks st) (trace st).
Definition with_strategies (f : nat -> nat) (st : State) : State :=
  mkState (this st) (gates st) (clients st) (f (strategies st)) (tasks st) (trace st).
Definition with_tasks (f : gmap TaskId Kont -> gmap TaskId Kont) (st : State) : State :=
  mkState (this st) (gates st) (clients st) (strategies st) (f (tasks st)) (trace st).
Definition with_trace (f : list Event -> list Event) (st : State) : State :=
  mkState (this st) (gates st) (clients st) (strategies st) (tasks st) (f (trace st)).

(** Primitive operations. *)
Definition read {A} (f : Fields -> A) : Eff State A :=
  fun st => (Returned (f (this st)), st).
Definition write (f : Fields -> Fields) : Eff State unit :=
  fun st => (Returned tt, with_this f st).
Definition emit (ev : Event) : Eff State unit :=
  fun st => (Returned tt, with_trace (fun tr => tr ++ [ev]) st).
Definition skip : Eff State unit := ret tt.

(** [createDeferred<void>()]: a new object in the store. *)
Definition new_gate : Eff State GateId :=
  fun st => (Returned (length (gates st)),
             with_gates (fun gs => gs ++ [createDeferred]) st).
Definition gate_completed (g : GateId) : Eff State bool :=
  fun st => (Returned (match gates st !! g with
                       | Some d => completed d
                       | None => false
                       end), st).
Definition gate_update (f : Deferred -> Deferred) (g : GateId) : Eff State unit :=
  fun st => (Returned tt, with_gates (alter f g) st).

(** The constructor, lines 37-46, and the field initialisers. *)
Definition constructed : State :=
  mkState (mkFields None 0 None [] false None) [createDeferred] [] 0 ∅ [].

Section WithEnv.
Variable env : Env.

(** [d.dispose()] of a list entry. *)
Definition dispose_entry (d : Disposable) : Eff State unit :=
  emit (EvDisposableDispose d);;;
  match dispose_throws env d with
  | Some e => throw e
  | None => ret tt
  end.

(** Lines 65-68.  [ds] is the value of [this.disposables] when the loop
    tests its condition; [shift()] removes the head before it is
    disposed. *)
Fixpoint drain (ds : list Disposable) : Eff State unit :=
  match ds with
  | [] => skip
  | d :: rest =>
      write (set_disposables rest);;;
      dispose_entry d;;;
      drain rest
  end.

(** [dispose], lines 55-74. *)
Definition dispose : Eff State unit :=
  (let! lc := read languageClient in
   match lc with
   | Some c =>
       (* stop() is not awaited *)
       emit (EvClientStop c);;;
       write (set_languageClient None)
   | None => skip
   end);;;
  (let! cs := read cancellationStrategy in
   match cs with
   | Some s =>
       emit (EvStrategyDispose s);;;
       write (set_cancellationStrategy None)
   | None => skip
   end);;;
  (let! ds := read disposables in drain ds);;;
  (let! g := read startupCompleted in
   let! settled := gate_completed g in
   if (settled : bool) then
     emit (EvGateReject g "Disposed Language Server");;;
     gate_update (reject "Disposed Language Server") g;;;
     let! g' := new_gate in
     write (set_startupCompleted g')
   else skip);;;
  write (set_disposed true).

(** [this.disposables.push(d)]. *)
Definition push (d : Disposable) : Eff State unit :=
  write (fun p => set_disposables (disposables p ++ [d]) p).

(** [new FileBasedCancellationStrategy()], line 93. *)
Definition new_strategy (t : TaskId) : Eff State StrategyId :=
  fun st => (Returned (strategies st),
             with_trace (fun tr => tr ++ [EvNewCancellationStrategy t (strategies st)])
               (with_strategies S st)).

(** The client the factory's promise is fulfilled with: a new client,
    whose [initializeResult] is not set yet. *)
Definition new_client : Eff State ClientId :=
  fun st => (Returned (length (clients st)),
             with_clients (fun cs => cs ++ [false]) st).

(** [this.languageClient!.initializeResult], as a truth value. *)
Definition initializeResult (c : ClientId) : Eff State bool :=
  fun st => (Returned (default false (clients st !! c)), st).

(** [serverReady], lines 148-153, from one test of the loop condition on:
    the call either suspends in [sleep(100)], or resolves the gate and
    returns to line 98. *)
Definition serverReady (t : TaskId) (r : Resource) : Eff State Kont :=
  let! lc := read languageClient in
  let! waiting :=
    match lc with
    | Some c => let! ready := initializeResult c in ret (negb ready)
    | None => ret false
    end in
  if (waiting : bool) then
    emit (EvSleep t 100);;;
    ret (AwaitSleep r)
  else
    let! g := read startupCompleted in
    emit (EvGateResolve t g);;;
    gate_update resolve g;;;
    ret (AwaitServerReady r).

(** The body of [registerTestServices], lines 157-160.  The promise of
    [activate] is taken as settled when the call is made: what happens
    between the call and a rejection is not kept apart. *)
Definition registerTestServices_body : Eff State unit :=
  let! lc := read languageClient in
  match lc with
  | None => throw "languageClient not initialized"
  | Some c =>
      emit (EvActivate c);;;
      match activate_rejects env with
      | Some e => throw e
      | None => ret tt
      end
  end.

(** Modelled from the spec: the decorator [swallowExceptions] of
    common/utils/decorators is not among the sources.  It is the
    "best-effort swallow-and-log" wrapper that "catches all failures from
    [operation], logs them tagged with [context], and never propagates". *)
Definition swallowExceptions (scopeName : string) (operation : Eff State unit)
  : Eff State unit :=
  try_catch operation (fun e => emit (EvTraceError scopeName e)).

(** [registerTestServices] as callers see it, lines 155-161. *)
Definition registerTestServices : Eff State unit :=
  swallowExceptions "Activating Unit Tests Manager for Language Server"
    registerTestServices_body.

(** [start], lines 89-90 and 133-134: up to the first [await]. *)
Definition start_entry (t : TaskId) (r : Resource)
    (i : option PythonInterpreter) (o : LanguageClientOptions) : Eff State Kont :=
  let! lc := read languageClient in
  match lc with
  | None =>
      emit (EvGetDirectory t);;;
      ret (AwaitDirectory r i o)
  | Some _ =>
      let! g := read startupCompleted in
      ret (AwaitGate g)
  end.

(** [start], lines 91-96; [version] is [directory?.version.format()]. *)
Definition start_after_directory (t : TaskId) (r : Resource)
    (i : option PythonInterpreter) (o : LanguageClientOptions)
    (version : option string) : Eff State Kont :=
  write (set_lsVersion version);;;
  let! s := new_strategy t in
  write (set_cancellationStrategy (Some s));;;
  emit (EvCreateLanguageClient t r i (mkOptions (Some s)));;;
  ret (AwaitFactory r).

(** [start], lines 96-98. *)
Definition start_after_factory (t : TaskId) (r : Resource) : Eff State Kont :=
  let! c := new_client in
  write (set_languageClient (Some c));;;
  emit (EvClientStart t c);;;
  push (TransportDisposable c);;;
  serverReady t r.

(** [start], lines 99-132.  [new ProgressReporting(...)] and line 113 are
    outside the sources; the constructor is taken to return. *)
Definition start_after_ready (t : TaskId) (r : Resource) : Eff State Kont :=
  let! gone := read disposed in
  if (gone : bool) then ret Completed
  else
    let! lc := read languageClient in
    emit (EvNewProgressReporting t lc);;;
    push (ProgressReporting lc);;;
    (if inExperiment env then
       emit (EvOnDidChange t);;;
       push (PathChangeSubscription t)
     else skip);;;
    (if downloadLanguageServer env r then
       let! lc := read languageClient in
       match lc with
       | Some c => emit (EvOnTelemetry t c)
       | None => throw "TypeError: Cannot read property 'onTelemetry' of undefined"
       end
     else skip);;;
    registerTestServices;;;
    ret AwaitTestServices.

End WithEnv.

(** ** The machine *)

Inductive Action : Type :=
| CallStart (t : TaskId) (r : Resource) (i : option PythonInterpreter)
    (o : LanguageClientOptions)        (* a caller invokes [start] *)
| CallDispose                          (* a caller invokes [dispose] *)
| DirectoryResolved (t : TaskId) (version : option string)
| DirectoryRejected (t : TaskId) (e : string)
| ClientCreated (t : TaskId)           (* the factory's promise is fulfilled *)
| FactoryRejected (t : TaskId) (e : string)
| ClientInitialized (c : ClientId)     (* [initializeResult] gets set *)
| TimerFired (t : TaskId)              (* [sleep(100)] is over *)
| Continue (t : TaskId).               (* the awaited promise has settled *)

Section Machine.
Variable env : Env.

(** Run one synchronous block of call [t] and record where it stops. *)
Definition settle (t : TaskId) (m : Eff State Kont) (st : State) : State :=
  match m st with
  | (Returned k, st') => with_tasks (<[t := k]>) st'
  | (Threw e, st') => with_tasks (<[t := Failed e]>) st'
  end.

Definition step (a : Action) (st : State) : option State :=
  match a with
  | CallStart t r i o =>
      match tasks st !! t with
      | None => Some (settle t (start_entry t r i o) st)
      | Some _ => None
      end
  | CallDispose => Some (snd (dispose env st))
  | DirectoryResolved t version =>
      match tasks st !! t with
      | Some (AwaitDirectory r i o) =>
          Some (settle t (start_after_directory t r i o version) st)
      | _ => None
      end
  | DirectoryRejected t e =>
      match tasks st !! t with
      | Some (AwaitDirectory r i o) => Some (settle t (throw e) st)
      | _ => None
      end
  | ClientCreated t =>
      match tasks st !! t with
      | Some (AwaitFactory r) => Some (settle t (start_after_factory t r) st)
      | _ => None
      end
  | FactoryRejected t e =>
      match tasks st !! t with
      | Some (AwaitFactory r) => Some (settle t (throw e) st)
      | _ => None
      end
  | ClientInitialized c =>
      if decide (c < length (clients st))
      then Some (with_clients (<[c := true]>) st)
      else None
  | TimerFired t =>
      match tasks st !! t with
      | Some (AwaitSleep r) => Some (settle t (serverReady t r) st)
      | _ => None
      end
  | Continue t =>
      match tasks st !! t with
      | Some (AwaitServerReady r) => Some (settle t (start_after_ready env t r) st)
      | Some AwaitTestServices => Some (settle t (ret Completed) st)
      | Some (AwaitGate g) =>
          match gates st !! g with
          | Some Resolved => Some (settle t (ret Completed) st)
          | Some (Rejected e) => Some (settle t (throw e) st)
          | _ => None
          end
      | _ => None
      end
  end.

Fixpoint run (acts : list Action) (st : State) : option State :=
  match acts with
  | [] => Some st
  | a :: rest =>
      match step a st with
      | Some st' => run rest st'
      | None => None
      end
  end.

End Machine.

(** ** Reading the trace and the store *)

Fixpoint count_events (p : Event -> bool) (tr : list Event) : nat :=
  match tr with
  | [] => 0
  | ev :: rest => (if p ev then 1 else 0) + count_events p rest
  end.

Definition is_factory_call (ev : Event) : bool :=
  match ev with EvCreateLanguageClient _ _ _ _ => true | _ => false end.
Definition is_sleep_of (t : TaskId) (ev : Event) : bool :=
  match ev with EvSleep t' _ => bool_decide (t' = t) | _ => false end.
Definition is_resolve_of (t : TaskId) (ev : Event) : bool :=
  match ev with EvGateResolve t' _ => bool_decide (t' = t) | _ => false end.

(** [factory.createLanguageClient] calls, polls and gate resolutions. *)
Definition factory_calls (st : State) : nat := count_events is_factory_call (trace st).
Definition polls (t : TaskId) (st : State) : nat := count_events (is_sleep_of t) (trace st).
Definition resolutions (t : TaskId) (st : State) : nat :=
  count_events (is_resolve_of t) (trace st).

(** A call that has left [serverReady], or never enters it. *)
Definition past_polling (k : Kont) : bool :=
  match k with
  | AwaitDirectory _ _ _ | AwaitFactory _ | AwaitSleep _ => false
  | _ => true
  end.

(** The list entries whose [dispose()] was called, in call order. *)
Definition released (tr : list Event) : list Disposable :=
  omap (fun ev => match ev with EvDisposableDispose d => Some d | _ => None end) tr.

(** The gates [reject] was called on, in call order. *)
Definition rejected_gates (tr : list Event) : list GateId :=
  omap (fun ev => match ev with EvGateReject g _ => Some g | _ => None end) tr.

(** The object the field [startupCompleted] refers to. *)
Definition current_gate (st : State) : option Deferred :=
  gates st !! startupCompleted (this st).

(** The calls of lines 56-64, given the two handles. *)
Definition handle_events (lc : option ClientId) (cs : option StrategyId) : list Event :=
  match lc with Some c => [EvClientStop c] | None => [] end
  ++ match cs with Some s => [EvStrategyDispose s] | None => [] end.

(** [startupCompleted.completed] for the object at [g]. *)
Definition settled_at (gs : list Deferred) (g : GateId) : bool :=
  match gs !! g with Some d => completed d | None => false end.

Section Drain.
Variable env : Env.

(** What the loop of lines 65-68 does to a list: the entries it calls
    [dispose()] on, the entries it leaves, and how it ends. *)
Fixpoint attempted (ds : list Disposable) : list Disposable :=
  match ds with
  | [] => []
  | d :: rest =>
      d :: match dispose_throws env d with
           | Some _ => []
           | None => attempted rest
           end
  end.

Fixpoint left_over (ds : list Disposable) : list Disposable :=
  match ds with
  | [] => []
  | d :: rest =>
      match dispose_throws env d with
      | Some _ => rest
      | None => left_over rest
      end
  end.

Fixpoint drain_outcome (ds : list Disposable) : outcome unit :=
  match ds with
  | [] => Returned tt
  | d :: rest =>
      match dispose_throws env d with
      | Some e => Threw e
      | None => drain_outcome rest
      end
  end.
End Drain.

End Proxy.

(** ** The telemetry relay of [start], lines 122-130 *)

Module Telemetry.

(** The values a property of a telemetry event can hold. *)
Inductive JsValue : Type :=
| JUndefined
| JNull
| JString (s : string)
| JNumber (n : Z).

(** [obj.key]: a missing key reads as [undefined]. *)
Definition get (obj : gmap string JsValue) (key : string) : JsValue :=
  default JUndefined (obj !! key).

Definition truthy (v : JsValue) : bool :=
  match v with
  | JUndefined | JNull => false
  | JString s => negb (String.eqb s "")
  | JNumber n => negb (Z.eqb n 0)
  end.

(** [s.replace(/\//g, '.')]. *)
Fixpoint replace_slashes (s : string) : string :=
  match s with
  | EmptyString => EmptyString
  | String c rest =>
      String (if Ascii.eqb c "/" then "."%char else c) (replace_slashes rest)
  end.

(** [v?.replace(/\//g, '.')]: a number has no [replace] to call. *)
Definition optional_replace (v : JsValue) : outcome JsValue :=
  match v with
  | JUndefined | JNull => Returned JUndefined
  | JString s => Returned (JString (replace_slashes s))
  | JNumber _ => Threw "TypeError: replace is not a function"
  end.

Section Relay.
Context {Measurements : Type}.
(** [EventName.LANGUAGE_SERVER_TELEMETRY] of telemetry/constants, which is
    not among the sources. *)
Variable LANGUAGE_SERVER_TELEMETRY : string.

Record TelemetryEvent : Type := mkTelemetryEvent {
  EventName : JsValue;
  Measurements_ : Measurements;
  Properties : option (gmap string JsValue)   (* [None]: no such object *)
}.

(** The arguments of [sendTelemetryEvent]. *)
Record Sent : Type := mkSent {
  sent_eventName : JsValue;
  sent_measurements : Measurements;
  sent_properties : gmap string JsValue
}.

Definition relay (telemetryEvent : TelemetryEvent) : outcome Sent :=
  let eventName :=
    if truthy (EventName telemetryEvent) then EventName telemetryEvent
    else JString LANGUAGE_SERVER_TELEMETRY in
  match Properties telemetryEvent with
  | None => Threw "TypeError: Cannot read property 'method' of undefined"
  | Some properties =>
      match optional_replace (get properties "method") with
      | Returned method =>
          Returned (mkSent eventName (Measurements_ telemetryEvent)
                      (<["method" := method]> properties))
      | Threw e => Threw e
      end
  end.
End Relay.

(** An event whose method is a path, and one without a method. *)
Definition with_method : @TelemetryEvent nat :=
  mkTelemetryEvent (JString "analysis") 7
    (Some (<["method" := JString "a/b/c"]> {["lsVersion" := JString "0.5.59"]})).
Definition without_method : @TelemetryEvent nat :=
  mkTelemetryEvent JUndefined 7 (Some {["lsVersion" := JString "0.5.59"]}).

End Telemetry.

(** ** datascience/export/exportManagerDependencyChecker.ts *)

Module ExportChecker.

Section ExportManagerDependencyChecker.
Context {World Uri ExportFormat INotebookModel : Type}.

(** The calls [export] makes on the injected objects. *)
Inductive Call : Type :=
| IsImportSupported
| InstallMissingDependencies
| ManagerExport (format : ExportFormat) (model : INotebookModel).

(** The injected objects, and the message of
    [localize.DataScience.jupyterNbConvertNotSupported()]. *)
Variable manager_export : ExportFormat -> INotebookModel -> Eff World (option Uri).
Variable isImportSupported : Eff World bool.
Variable installMissingDependencies : Eff World unit.
Variable jupyterNbConvertNotSupported : string.

(** A call on an injected object, awaited, and logged. *)
Definition call {A} (c : Call) (m : Eff World A) : Eff (World * list Call) A :=
  fun s => let (o, w) := m (fst s) in (o, (w, snd s ++ [c])).

(** [export], lines 17-28. *)
Definition export (format : ExportFormat) (model : INotebookModel)
  : Eff (World * list Call) (option Uri) :=
  let! supported := call IsImportSupported isImportSupported in
  (if negb supported
   then call InstallMissingDependencies installMissingDependencies
   else ret tt);;;
  let! supported := call IsImportSupported isImportSupported in
  if (supported : bool) then
    call (ManagerExport format model) (manager_export format model)
  else
    throw jupyterNbConvertNotSupported.
End ExportManagerDependencyChecker.

(** A machine on which nbconvert is missing and can be installed: the world
    is whether it is there; the wrapped manager writes one file. *)
Module Installable.
Inductive ExportFormat : Type := pdf | html | python.
Definition isImportSupported : Eff bool bool := fun w => (Returned w, w).
Definition installMissingDependencies : Eff bool unit := fun _ => (Returned tt, true).
Definition manager_export (format : ExportFormat) (model : string)
  : Eff bool (option string) :=
  fun w => (Returned (Some (model +:+ ".out")), w).
Definition checker :=
  export manager_export isImportSupported installMissingDependencies
    "Jupyter nbconvert is not installed".
End Installable.

End ExportChecker.

(** ** Concrete collaborators and schedules *)

Module Scenario.
Import Proxy.

(** No experiment, no telemetry relay, nothing fails. *)
Definition quiet : Env := mkEnv false (fun _ => false) (fun _ => None) None.
(** Experiment and telemetry relay on, nothing fails. *)
Definition wired : Env := mkEnv true (fun _ => true) (fun _ => None) None.
(** Every [dispose()] of a list entry throws. *)
Definition throwing : Env :=
  mkEnv false (fun _ => false) (fun _ => Some "release failed") None.
(** Only the transport's entry throws. *)
Definition transport_throws : Env :=
  mkEnv false (fun _ => false)
    (fun d => match d with
              | TransportDisposable _ => Some "release failed"
              | _ => None
              end) None.

Definition options0 : LanguageClientOptions := mkOptions None.

(** One call of [start] taken up to its wiring. *)
Definition session_up : list Action :=
  [CallStart 0 None None options0; DirectoryResolved 0 None; ClientCreated 0;
   ClientInitialized 0; TimerFired 0; Continue 0].

(** A call of [start] that polls, and a second call waiting on the gate. *)
Definition polling_with_waiter : list Action :=
  [CallStart 0 None None options0; DirectoryResolved 0 None; ClientCreated 0;
   CallStart 1 None None options0].

(** Calls [base], ..., [base + n - 1] of [start], made one after the other
    with nothing in between, and then their directory lookups completing. *)
Definition concurrent_starts (base n : nat) : list Action :=
  (fun t => CallStart t None None options0) <$> seq base n.
Definition directories_resolved (base n : nat) : list Action :=
  (fun t => DirectoryResolved t None) <$> seq base n.

(** The state a schedule leads to from a new proxy. *)
Definition after (env : Env) (acts : list Action) : State :=
  default constructed (run env acts constructed).
End Scenario.

(** ** Further readings of the trace, for the session as a whole *)

Module Session.
Import Async Proxy.

(** [new ProgressReporting(...)] made by call [t], line 103. *)
Definition is_wiring_of (t : TaskId) (ev : Event) : bool :=
  match ev with EvNewProgressReporting t' _ => bool_decide (t' = t) | _ => false end.
Definition wirings (t : TaskId) (st : State) : nat :=
  count_events (is_wiring_of t) (trace st).

(** The calls of lines 103-132: progress reporting, the path-change
    subscription, the telemetry relay and the test manager.  The log entry
    of a rejected activation is not one of them: the rejection comes after
    an [await] (line 160), when the flag may have been set in between. *)
Definition is_subsidiary (ev : Event) : bool :=
  match ev with
  | EvNewProgressReporting _ _ | EvOnDidChange _ | EvOnTelemetry _ _
  | EvActivate _ => true
  | _ => false
  end.
Definition subsidiary_calls (st : State) : nat :=
  count_events is_subsidiary (trace st).

Definition is_stop_of (c : ClientId) (ev : Event) : bool :=
  match ev with EvClientStop c' => bool_decide (c' = c) | _ => false end.
Definition is_strategy_dispose_of (s : StrategyId) (ev : Event) : bool :=
  match ev with EvStrategyDispose s' => bool_decide (s' = s) | _ => false end.

(** How often a call has resolved the gate and made its progress reporting,
    by where it stands. *)
Definition progress_of (k : option Kont) (resolved wired : nat) : Prop :=
  match k with
  | Some (AwaitServerReady _) => resolved = 1 /\ wired = 0
  | Some AwaitTestServices => resolved = 1 /\ wired = 1
  | Some Completed | Some (Failed _) => wired <= resolved /\ resolved <= 1
  | _ => resolved = 0 /\ wired = 0
  end.

Definition not_rejected (d : Deferred) : Prop :=
  match d with Rejected _ => False | _ => True end.

(** What lines 103-132 push and call, for a call [t] with client [c]. *)
Definition wiring_entries (env : Env) (t : TaskId) (c : ClientId) : list Disposable :=
  [ProgressReporting (Some c)]
    ++ (if inExperiment env then [PathChangeSubscription t] else []).
Definition wiring_events (env : Env) (t : TaskId) (r : Resource) (c : ClientId)
  : list Event :=
  [EvNewProgressReporting t (Some c)]
    ++ (if inExperiment env then [EvOnDidChange t] else [])
    ++ (if downloadLanguageServer env r then [EvOnTelemetry t c] else [])
    ++ [EvActivate c]
    ++ match activate_rejects env with
       | Some e => [EvTraceError "Activating Unit Tests Manager for Language Server" e]
       | None => []
       end.

(** A test manager whose [activate] rejects. *)
Definition activation_fails : Env :=
  mkEnv true (fun _ => true) (fun _ => None) (Some "activation failed").

(** Schedules: a call waiting for its client; a call that has just left
    [serverReady]; a session that is up and then disposed; a second call
    taken through all of [start]. *)
Definition awaiting_factory : list Action :=
  [CallStart 0 None None Scenario.options0; DirectoryResolved 0 None].
Definition ready_to_wire : list Action :=
  awaiting_factory ++ [ClientCreated 0; ClientInitialized 0; TimerFired 0].
Definition up_then_disposed : list Action :=
  Scenario.session_up ++ [Continue 0; CallDispose].
Definition second_call : list Action :=
  [CallStart 1 None None Scenario.options0; DirectoryResolved 1 None;
   ClientCreated 1; ClientInitialized 1; TimerFired 1; Continue 1].

End Session.

(** ** Slashes in a method name *)

Module Slashes.

Fixpoint no_slash (s : string) : bool :=
  match s with
  | EmptyString => true
  | String c rest => negb (Ascii.eqb c "/") && no_slash rest
  end.

End Slashes.

(** * Properties *)

Import Async Proxy.

Ltac eff_unfold :=
  unfold push, skip in *;
  unfold bind, ret, throw, try_catch, read, write, emit, new_gate,
    gate_completed, gate_update, new_strategy, new_client,
    initializeResult, with_this, with_gates, with_clients, with_strategies,
    with_tasks, with_trace in *.

(** ** The deferred object *)

Lemma completed_reject_id reason d : completed d = true -> reject reason d = d.
Proof. by destruct d. Qed.

Lemma alter_reject_completed reason (gs : list Deferred) g d :
  gs !! g = Some d -> completed d = true -> alter (reject reason) g gs = gs.
Proof.
  intros Hg Hd. apply list_eq. intros i.
  destruct (decide (i = g)) as [->|Hne].
  - rewrite list_lookup_alter_eq, Hg. simpl. by rewrite completed_reject_id.
  - by rewrite list_lookup_alter_ne.
Qed.

(** ** The drain loop *)

Section DisposeFacts.
Variable env : Env.

Lemma drain_run ds :
  forall lc g cs dd v gs cls n tk tr,
    drain env ds (mkState (mkFields lc g cs ds dd v) gs cls n tk tr)
    = (drain_outcome env ds,
       mkState (mkFields lc g cs (left_over env ds) dd v) gs cls n tk
               (tr ++ (EvDisposableDispose <$> attempted env ds))).
Proof.
  induction ds as [|d rest IH]; intros; simpl.
  - by rewrite app_nil_r.
  - eff_unfold. unfold dispose_entry. eff_unfold. simpl.
    destruct (dispose_throws env d) as [e|] eqn:Hd; simpl.
    + done.
    + unfold set_disposables; simpl. rewrite IH.
      by rewrite <- app_assoc.
Qed.

Lemma drain_outcome_returned ds :
  drain_outcome env ds = Returned tt
  <-> Forall (fun d => dispose_throws env d = None) ds.
Proof.
  induction ds as [|d rest IH]; simpl.
  - split; [constructor | done].
  - destruct (dispose_throws env d) eqn:Hd.
    + split; [done | by inversion 1; simplify_eq].
    + rewrite IH. split; [by constructor | by inversion 1].
Qed.

Lemma drain_all ds :
  Forall (fun d => dispose_throws env d = None) ds ->
  attempted env ds = ds /\ left_over env ds = [].
Proof.
  induction 1 as [|d rest Hd _ [IH1 IH2]]; simpl; [done|].
  rewrite Hd. by rewrite IH1.
Qed.

Lemma drain_until pre d post e :
  Forall (fun d => dispose_throws env d = None) pre ->
  dispose_throws env d = Some e ->
  attempted env (pre ++ d :: post) = pre ++ [d]
  /\ left_over env (pre ++ d :: post) = post
  /\ drain_outcome env (pre ++ d :: post) = Threw e.
Proof.
  intros Hpre Hd. induction Hpre as [|x pre Hx _ IH]; simpl.
  - by rewrite Hd.
  - rewrite Hx. destruct IH as (-> & -> & ->). done.
Qed.

(** One run of [dispose], field by field. *)
Lemma dispose_run lc g cs ds dd v gs cls n tk tr :
  dispose env (mkState (mkFields lc g cs ds dd v) gs cls n tk tr)
  = let tr1 := tr ++ handle_events lc cs
                  ++ (EvDisposableDispose <$> attempted env ds) in
    match drain_outcome env ds with
    | Threw e =>
        (Threw e,
         mkState (mkFields None g None (left_over env ds) dd v) gs cls n tk tr1)
    | Returned _ =>
        if settled_at gs g then
          (Returned tt,
           mkState (mkFields None (length gs) None (left_over env ds) true v)
                   (gs ++ [Pending]) cls n tk
                   (tr1 ++ [EvGateReject g "Disposed Language Server"]))
        else
          (Returned tt,
           mkState (mkFields None g None (left_over env ds) true v) gs cls n tk tr1)
    end.
Proof.
  unfold dispose, settled_at.
  destruct lc as [c|], cs as [s|]; eff_unfold; simpl;
    unfold set_languageClient, set_cancellationStrategy; simpl;
    rewrite drain_run;
    (destruct (drain_outcome env ds) as [[]|e]; simpl; [|by rewrite <- ?app_assoc]);
    (destruct (gs !! g) as [d|] eqn:Hg; simpl;
     [destruct (completed d) eqn:Hd; simpl|]);
    rewrite ?length_alter, <- ?app_assoc; simpl;
    try (erewrite alter_reject_completed by eauto);
    try done.
Qed.

End DisposeFacts.

Lemma released_app tr1 tr2 : released (tr1 ++ tr2) = released tr1 ++ released tr2.
Proof. apply omap_app. Qed.

Lemma released_handle_events lc cs : released (handle_events lc cs) = [].
Proof. by destruct lc, cs. Qed.

Lemma released_dispose_events ds : released (EvDisposableDispose <$> ds) = ds.
Proof. induction ds as [|d ds IH]; [done|]. change (d :: released (EvDisposableDispose <$> ds) = d :: ds). by rewrite IH. Qed.

Tactic Notation "destruct_state" ident(st) :=
  destruct st as [[?lc ?g ?cs ?ds ?dd ?v] ?gs ?cls ?n ?tk ?tr].

Section DisposeClaims.
Variable env : Env.

(** What [dispose] calls [dispose()] on and what it leaves in the list. *)
Lemma dispose_released st :
  released (trace (dispose env st).2)
    = released (trace st) ++ attempted env (disposables (this st))
  /\ disposables (this (dispose env st).2) = left_over env (disposables (this st))
  /\ (dispose env st).1 = drain_outcome env (disposables (this st)).
Proof.
  destruct_state st. rewrite dispose_run. simpl.
  destruct (drain_outcome env _) as [[]|e]; simpl;
    [destruct (settled_at _ _); simpl|];
    rewrite ?released_app, released_handle_events, released_dispose_events;
    simpl; rewrite ?app_nil_r; done.
Qed.

(** C5, as amended: [dispose] takes the entries of [disposables] from the
    front and calls [dispose()] on each in turn.  If none throws, all are
    called, in list order, and the list ends empty.  If one throws, the
    entries before it and that entry are the only ones called, [dispose]
    ends with that exception, and the entries after it stay in the list. *)
Theorem dispose_drain_stops_at_throw st o st' :
  dispose env st = (o, st') ->
  (Forall (fun d => dispose_throws env d = None) (disposables (this st)) ->
     o = Returned tt
     /\ released (trace st') = released (trace st) ++ disposables (this st)
     /\ disposables (this st') = [])
  /\ (forall pre d post e,
        disposables (this st) = pre ++ d :: post ->
        Forall (fun d => dispose_throws env d = None) pre ->
        dispose_throws env d = Some e ->
        o = Threw e
        /\ released (trace st') = released (trace st) ++ pre ++ [d]
        /\ disposables (this st') = post).
Proof.
  intros Hrun. destruct (dispose_released st) as (Htr & Hds & Ho).
  rewrite Hrun in Htr, Hds, Ho. simpl in *. split.
  - intros Hall. destruct (drain_all env _ Hall) as [Ha Hl].
    rewrite Htr, Hds, Ho, Ha, Hl. split; [|done].
    by apply drain_outcome_returned.
  - intros pre d post e Heq Hpre Hd.
    destruct (drain_until env pre d post e Hpre Hd) as (Ha & Hl & Hout).
    rewrite Htr, Hds, Ho, Heq, Ha, Hl, Hout. done.
Qed.

(** C7, as amended: after a call of [dispose] that returned, a second call
    returns too, calls nothing (no [stop], no [dispose()] of a strategy or a
    list entry, no [reject]) and leaves every field as the first call
    left it. *)
Theorem dispose_twice_after_return st st1 :
  dispose env st = (Returned tt, st1) ->
  dispose env st1 = (Returned tt, st1).
Proof.
  destruct_state st. rewrite dispose_run. simpl.
  destruct (drain_outcome env _) as [[]|e] eqn:Hout; [|done].
  apply drain_outcome_returned, drain_all in Hout as [_ Hl]. rewrite Hl.
  destruct (settled_at _ _) eqn:Hs; intros [= <-]; rewrite dispose_run; simpl.
  - unfold settled_at. rewrite lookup_app_r, Nat.sub_diag by lia. simpl.
    by rewrite app_nil_r.
  - rewrite Hs. by rewrite app_nil_r.
Qed.

Lemma rejected_gates_app tr1 tr2 :
  rejected_gates (tr1 ++ tr2) = rejected_gates tr1 ++ rejected_gates tr2.
Proof. apply omap_app. Qed.

Lemma rejected_gates_handle_events lc cs : rejected_gates (handle_events lc cs) = [].
Proof. by destruct lc, cs. Qed.

Lemma rejected_gates_dispose_events ds :
  rejected_gates (EvDisposableDispose <$> ds) = [].
Proof. by induction ds. Qed.

(** C4, as amended: [dispose] changes the outcome of no deferred object.  If
    the current gate is still pending, [dispose] does not call [reject]; the
    gate stays the current gate, pending: nobody waiting on it is woken.  If
    the gate had completed and [dispose] gets past the drain of the list (no
    entry throws, so it returns), it calls [reject] with 'Disposed Language
    Server' on that gate, once and as its last call, the outcome of the gate
    stays what it was, and the field refers to a new, pending object.  If an
    entry throws, [dispose] ends before the gate step: [reject] is not
    called and the field is unchanged. *)
Theorem dispose_gate st o st1 :
  dispose env st = (o, st1) ->
  (forall g d, gates st !! g = Some d -> gates st1 !! g = Some d)
  /\ (current_gate st = Some Pending ->
      rejected_gates (trace st1) = rejected_gates (trace st)
      /\ startupCompleted (this st1) = startupCompleted (this st)
      /\ current_gate st1 = Some Pending)
  /\ (forall d, o = Returned tt -> current_gate st = Some d -> completed d = true ->
      rejected_gates (trace st1)
        = rejected_gates (trace st) ++ [startupCompleted (this st)]
      /\ last (trace st1)
         = Some (EvGateReject (startupCompleted (this st)) "Disposed Language Server")
      /\ gates st1 !! startupCompleted (this st) = Some d
      /\ startupCompleted (this st1) = length (gates st)
      /\ startupCompleted (this st1) <> startupCompleted (this st)
      /\ current_gate st1 = Some Pending)
  /\ (forall e, o = Threw e ->
      rejected_gates (trace st1) = rejected_gates (trace st)
      /\ startupCompleted (this st1) = startupCompleted (this st)
      /\ gates st1 = gates st).
Proof.
  destruct_state st. unfold current_gate. rewrite dispose_run. simpl.
  unfold settled_at.
  assert (rejected_gates (tr ++ handle_events lc cs
                             ++ (EvDisposableDispose <$> attempted env ds))
          = rejected_gates tr) as Hrej.
  { rewrite !rejected_gates_app, rejected_gates_handle_events,
      rejected_gates_dispose_events. by rewrite app_nil_r. }
  destruct (drain_outcome env _) as [[]|e]; simpl.
  - destruct (gs !! g) as [d0|] eqn:Hg; simpl.
    + destruct (completed d0) eqn:Hd; intros [= <- <-]; simpl.
      * split; [intros; by apply lookup_app_l_Some|].
        split; [intros [= ->]; done|].
        split; [|done].
        intros d _ [= <-] _. pose proof (lookup_lt_Some _ _ _ Hg).
        split; [by rewrite rejected_gates_app, Hrej|].
        split; [apply last_snoc|].
        split; [by apply lookup_app_l_Some|].
        split; [done|]. split; [lia|].
        by rewrite lookup_app_r, Nat.sub_diag by lia.
      * split; [done|]. split; [by rewrite Hg, Hrej|].
        split; [|done]. intros d _ [= <-] ?. congruence.
    + intros [= <- <-]; simpl. rewrite Hg. done.
  - intros [= <- <-]; simpl. rewrite Hrej. repeat split; try done.
Qed.

End DisposeClaims.

(** ** [dispose] on concrete sessions *)

Section DisposeExamples.
Import Scenario.

(** C5: with a transport entry whose [dispose()] throws, the entry behind
    it is never called: [dispose] ends with the exception and the entry is
    still in the list. *)
Lemma dispose_drain_aborted :
  let st := after transport_throws session_up in
  let r := dispose transport_throws st in
  disposables (this st) = [TransportDisposable 0; ProgressReporting (Some 0)]
  /\ r.1 = Threw "release failed"
  /\ released (trace r.2) = [TransportDisposable 0]
  /\ disposables (this r.2) = [ProgressReporting (Some 0)].
Proof. vm_compute. done. Qed.

Lemma dispose_drain_stops_at_throw_witness :
  let st := after transport_throws session_up in
  let r := dispose transport_throws st in
  r.1 = Threw "release failed"
  /\ released (trace r.2) = released (trace st) ++ [] ++ [TransportDisposable 0]
  /\ disposables (this r.2) = [ProgressReporting (Some 0)].
Proof.
  intros st r.
  destruct (dispose_drain_stops_at_throw transport_throws st r.1 r.2) as [_ H].
  - apply surjective_pairing.
  - apply (H [] (TransportDisposable 0) [ProgressReporting (Some 0)] "release failed").
    + vm_compute. reflexivity.
    + constructor.
    + reflexivity.
Defined.

(** C7: when both entries throw, the first call ends with the exception of
    the transport entry, and the second call raises one too and leaves a
    state the first did not. *)
Lemma dispose_twice_second_throws :
  let st := after throwing session_up in
  let once := dispose throwing st in
  let twice := dispose throwing once.2 in
  once.1 = Threw "release failed"
  /\ twice.1 = Threw "release failed"
  /\ disposables (this once.2) = [ProgressReporting (Some 0)]
  /\ disposables (this twice.2) = [].
Proof. vm_compute. done. Qed.

Lemma dispose_twice_after_return_witness :
  let st := after quiet session_up in
  dispose quiet st = (Returned tt, (dispose quiet st).2)
  /\ dispose quiet (dispose quiet st).2 = (Returned tt, (dispose quiet st).2).
Proof.
  intros st.
  assert (H : dispose quiet st = (Returned tt, (dispose quiet st).2))
    by (vm_compute; reflexivity).
  split; [exact H|].
  exact (dispose_twice_after_return quiet st _ H).
Defined.

(** C4: a call of [start] is polling and a second call waits on the gate.
    [dispose] returns, the gate is the same object and still pending, and
    the waiting call cannot go on. *)
Lemma dispose_leaves_pending_gate :
  let st := after quiet polling_with_waiter in
  let r := dispose quiet st in
  tasks st !! 1 = Some (AwaitGate 0)
  /\ current_gate st = Some Pending
  /\ r.1 = Returned tt
  /\ startupCompleted (this r.2) = 0
  /\ gates r.2 !! 0 = Some Pending
  /\ step quiet (Continue 1) r.2 = None.
Proof. vm_compute. done. Qed.

Lemma dispose_gate_witness :
  (let st := after quiet polling_with_waiter in
   let r := dispose quiet st in
   rejected_gates (trace r.2) = rejected_gates (trace st)
   /\ startupCompleted (this r.2) = startupCompleted (this st)
   /\ current_gate r.2 = Some Pending)
  /\ (let st := after quiet session_up in
      let r := dispose quiet st in
      current_gate st = Some Resolved
      /\ rejected_gates (trace r.2) = [0]
      /\ gates r.2 !! 0 = Some Resolved
      /\ startupCompleted (this r.2) = 1
      /\ current_gate r.2 = Some Pending).
Proof.
  split.
  - intros st r.
    destruct (dispose_gate quiet st r.1 r.2) as (_ & H & _).
    + apply surjective_pairing.
    + apply H. vm_compute. reflexivity.
  - intros st r.
    destruct (dispose_gate quiet st r.1 r.2) as (_ & _ & H & _).
    + apply surjective_pairing.
    + destruct (H Resolved) as (Hrej & _ & Hold & Hnew & _ & Hcur).
      * vm_compute. reflexivity.
      * vm_compute. reflexivity.
      * reflexivity.
      * split; [vm_compute; reflexivity|].
        split; [rewrite Hrej; vm_compute; reflexivity|].
        split; [exact Hold|].
        split; [rewrite Hnew; vm_compute; reflexivity | exact Hcur].
Defined.

(** C4 with a completed gate and a throwing entry: the drain ends [dispose]
    before line 69, so [reject] is not called and the resolved gate stays the
    current one. *)
Example dispose_aborted_before_gate :
  let st := after transport_throws session_up in
  let r := dispose transport_throws st in
  current_gate st = Some Resolved
  /\ r.1 = Threw "release failed"
  /\ rejected_gates (trace r.2) = []
  /\ startupCompleted (this r.2) = startupCompleted (this st)
  /\ current_gate r.2 = Some Resolved.
Proof. vm_compute. done. Qed.

End DisposeExamples.

(** ** [registerTestServices] *)

Section TestServices.
Variable env : Env.

(** C3, as amended: with no client, the body of [registerTestServices]
    throws 'languageClient not initialized' before [testManager.activate]
    is reached, and the wrapper around the method turns that into a log
    entry: the caller gets a normal return. *)
Theorem registerTestServices_swallows st :
  languageClient (this st) = None ->
  registerTestServices_body env st = (Threw "languageClient not initialized", st)
  /\ registerTestServices env st
     = (Returned tt,
        with_trace
          (fun tr => tr ++ [EvTraceError "Activating Unit Tests Manager for Language Server"
                              "languageClient not initialized"]) st).
Proof.
  intros Hlc. unfold registerTestServices, swallowExceptions, registerTestServices_body.
  unfold try_catch, bind, read. rewrite Hlc. done.
Qed.

(** The body with a client: [activate] is called, and its rejection is
    swallowed as well. *)
Lemma registerTestServices_returns st :
  (registerTestServices env st).1 = Returned tt.
Proof.
  unfold registerTestServices, swallowExceptions, registerTestServices_body.
  eff_unfold. destruct (languageClient (this st)); simpl; [|done].
  by destruct (activate_rejects env).
Qed.

End TestServices.

(** C3: on a new proxy the call returns; no error reaches the caller. *)
Lemma registerTestServices_not_propagated :
  (registerTestServices Scenario.quiet constructed).1 = Returned tt
  /\ (registerTestServices Scenario.quiet constructed).1
     <> Threw "languageClient not initialized".
Proof. split; [reflexivity | discriminate]. Qed.

Lemma registerTestServices_swallows_witness :
  (registerTestServices Scenario.quiet constructed).1 = Returned tt.
Proof.
  destruct (registerTestServices_swallows Scenario.quiet constructed eq_refl) as [_ H].
  rewrite H. reflexivity.
Defined.

(** ** Single steps of [start] *)

Section StepFacts.
Variable env : Env.

Lemma run_app acts1 acts2 st :
  run env (acts1 ++ acts2) st = run env acts1 st ≫= run env acts2.
Proof.
  revert st. induction acts1 as [|a acts1 IH]; intros st; simpl; [done|].
  destruct (step env a st); simpl; [apply IH | done].
Qed.

(** Lines 96-98 and the first test of the loop: the new client has no
    [initializeResult], so the call goes to sleep. *)
Lemma step_ClientCreated t r lc g cs ds dd v gs cls n tk tr :
  tk !! t = Some (AwaitFactory r) ->
  step env (ClientCreated t) (mkState (mkFields lc g cs ds dd v) gs cls n tk tr)
  = Some (mkState
            (mkFields (Some (length cls)) g cs (ds ++ [TransportDisposable (length cls)]) dd v)
            gs (cls ++ [false]) n (<[t := AwaitSleep r]> tk)
            (tr ++ [EvClientStart t (length cls); EvSleep t 100])).
Proof.
  intros Ht. unfold step. simpl. rewrite Ht.
  unfold settle, start_after_factory, serverReady. eff_unfold. simpl.
  rewrite lookup_app_r, Nat.sub_diag by lia. simpl.
  by rewrite <- app_assoc.
Qed.

(** The timer fires and the client is still not initialised: sleep again. *)
Lemma step_TimerFired_waiting t r c g cs ds dd v gs cls n tk tr :
  tk !! t = Some (AwaitSleep r) ->
  cls !! c = Some false ->
  step env (TimerFired t) (mkState (mkFields (Some c) g cs ds dd v) gs cls n tk tr)
  = Some (mkState (mkFields (Some c) g cs ds dd v) gs cls n tk
            (tr ++ [EvSleep t 100])).
Proof.
  intros Ht Hc. unfold step. simpl. rewrite Ht.
  unfold settle, serverReady. eff_unfold. simpl. rewrite Hc. simpl.
  by rewrite insert_id.
Qed.

(** The timer fires and the loop condition is false: the gate is resolved
    and [serverReady] returns. *)
Lemma step_TimerFired_ready t r lc g cs ds dd v gs cls n tk tr :
  tk !! t = Some (AwaitSleep r) ->
  match lc with Some c => cls !! c = Some true | None => True end ->
  step env (TimerFired t) (mkState (mkFields lc g cs ds dd v) gs cls n tk tr)
  = Some (mkState (mkFields lc g cs ds dd v) (alter resolve g gs) cls n
            (<[t := AwaitServerReady r]> tk) (tr ++ [EvGateResolve t g])).
Proof.
  intros Ht Hc. unfold step. simpl. rewrite Ht.
  unfold settle, serverReady. eff_unfold. simpl.
  destruct lc as [c|]; simpl; [rewrite Hc|]; done.
Qed.

Lemma step_ClientInitialized c f gs cls n tk tr :
  c < length cls ->
  step env (ClientInitialized c) (mkState f gs cls n tk tr)
  = Some (mkState f gs (<[c := true]> cls) n tk tr).
Proof. intros Hc. unfold step. simpl. by destruct (decide (c < length cls)). Qed.

(** [k] polls that find nothing. *)
Lemma run_polls k t r c g cs ds dd v gs cls n tk tr :
  tk !! t = Some (AwaitSleep r) ->
  cls !! c = Some false ->
  run env (repeat (TimerFired t) k)
      (mkState (mkFields (Some c) g cs ds dd v) gs cls n tk tr)
  = Some (mkState (mkFields (Some c) g cs ds dd v) gs cls n tk
            (tr ++ repeat (EvSleep t 100) k)).
Proof.
  intros Ht Hc. revert tr. induction k as [|k IH]; intros tr; cbn [repeat run].
  - by rewrite app_nil_r.
  - rewrite (step_TimerFired_waiting t r c) by done.
    rewrite IH. by rewrite <- app_assoc.
Qed.

(** The polls of a call up to the one that finds the client initialised. *)
Lemma run_until_ready k t r c g cs ds dd v gs cls n tk tr :
  tk !! t = Some (AwaitSleep r) ->
  cls !! c = Some false ->
  run env (repeat (TimerFired t) k ++ [ClientInitialized c; TimerFired t])
      (mkState (mkFields (Some c) g cs ds dd v) gs cls n tk tr)
  = Some (mkState (mkFields (Some c) g cs ds dd v) (alter resolve g gs)
            (<[c := true]> cls) n (<[t := AwaitServerReady r]> tk)
            (tr ++ repeat (EvSleep t 100) k ++ [EvGateResolve t g])).
Proof.
  intros Ht Hc. rewrite run_app, (run_polls k t r c) by done.
  pose proof (lookup_lt_Some _ _ _ Hc) as Hlt.
  cbn [mbind option_bind run].
  rewrite step_ClientInitialized by done.
  rewrite (step_TimerFired_ready t r);
    [by rewrite <- app_assoc | done | by apply list_lookup_insert_eq].
Qed.

End StepFacts.

(** ** What later steps cannot do *)

Lemma count_events_app p tr1 tr2 :
  count_events p (tr1 ++ tr2) = count_events p tr1 + count_events p tr2.
Proof. induction tr1 as [|ev tr1 IH]; simpl; [done|]. rewrite IH. lia. Qed.

Lemma count_events_none p tr :
  Forall (fun ev => p ev = false) tr -> count_events p tr = 0.
Proof. induction 1 as [|ev tr Hev _ IH]; simpl; [done|]. by rewrite Hev, IH. Qed.

Section Afterwards.
Variable env : Env.

Lemma dispose_tasks st : tasks (dispose env st).2 = tasks st.
Proof.
  destruct_state st. rewrite dispose_run. simpl.
  destruct (drain_outcome env _) as [[]|e]; [destruct (settled_at _ _)|]; done.
Qed.

(** [dispose] makes none of the calls that [p] counts, if [p] counts no
    [stop], no [dispose()] and no [reject]. *)
Lemma dispose_count p st :
  (forall c, p (EvClientStop c) = false) ->
  (forall s, p (EvStrategyDispose s) = false) ->
  (forall d, p (EvDisposableDispose d) = false) ->
  (forall g e, p (EvGateReject g e) = false) ->
  count_events p (trace (dispose env st).2) = count_events p (trace st).
Proof.
  intros H1 H2 H3 H4. destruct_state st. rewrite dispose_run. simpl.
  assert (count_events p (handle_events lc cs) = 0) as Hh.
  { destruct lc, cs; simpl; rewrite ?H1, ?H2; done. }
  assert (count_events p (EvDisposableDispose <$> attempted env ds) = 0) as Hd.
  { apply count_events_none, Forall_fmap, Forall_true. intros d. apply H3. }
  destruct (drain_outcome env _) as [[]|e]; [destruct (settled_at _ _)|];
    simpl; rewrite !count_events_app, ?Hh, ?Hd; simpl; rewrite ?H4; lia.
Qed.

Lemma step_past_polling a st st' t k :
  tasks st !! t = Some k ->
  past_polling k = true ->
  step env a st = Some st' ->
  (exists k', tasks st' !! t = Some k' /\ past_polling k' = true)
  /\ polls t st' = polls t st
  /\ resolutions t st' = resolutions t st.
Proof.
  intros Ht Hk Hstep. unfold polls, resolutions.
  destruct a as [t' r i o| |t' ver|t' e|t'|t' e|c|t'|t']; simpl in Hstep.
  2: { injection Hstep as <-. rewrite dispose_tasks, !dispose_count by done. eauto. }
  6: { case_decide; [|done]. injection Hstep as <-. simpl. eauto. }
  all: destruct (decide (t' = t)) as [->|Hne];
    [rewrite Ht in Hstep; destruct k; try done|].
  all: destruct_state st; simpl in *.
  all: unfold settle, start_entry, start_after_directory, start_after_factory,
         start_after_ready, serverReady, registerTestServices, swallowExceptions,
         registerTestServices_body in Hstep; eff_unfold; simpl in Hstep.
  all: repeat (case_match; simplify_eq; simpl in * ).
  all: simplify_eq; simpl.
  all: rewrite ?lookup_insert_eq, ?lookup_insert_ne by done.
  all: rewrite ?count_events_app; simpl.
  all: rewrite ?bool_decide_eq_false_2 by done.
  all: split; [eauto | lia].
Qed.

(** The field [startupCompleted] always refers to an object of the store. *)
Lemma step_gate_valid a st st' :
  startupCompleted (this st) < length (gates st) ->
  step env a st = Some st' ->
  startupCompleted (this st') < length (gates st').
Proof.
  intros Hg Hstep.
  destruct a as [t' r i o| |t' ver|t' e|t'|t' e|c|t'|t']; simpl in Hstep.
  2: { injection Hstep as <-. destruct_state st. rewrite dispose_run. simpl in *.
       destruct (drain_outcome env _) as [[]|e]; [destruct (settled_at _ _)|];
         simpl; rewrite ?length_app; simpl; lia. }
  6: { case_decide; [|done]. by injection Hstep as <-. }
  all: destruct_state st; simpl in *.
  all: unfold settle, start_entry, start_after_directory, start_after_factory,
         start_after_ready, serverReady, registerTestServices, swallowExceptions,
         registerTestServices_body in Hstep; eff_unfold; simpl in Hstep.
  all: repeat (case_match; simplify_eq; simpl in * ).
  all: simplify_eq; simpl.
  all: rewrite ?length_alter; done.
Qed.

Lemma run_gate_valid acts st :
  run env acts constructed = Some st -> is_Some (current_gate st).
Proof.
  intros Hrun. apply lookup_lt_is_Some.
  assert (startupCompleted (this constructed) < length (gates constructed)) as Hg
    by (simpl; lia).
  revert Hg Hrun. generalize constructed.
  induction acts as [|a acts IH]; intros st0 Hg Hrun.
  - by injection Hrun as <-.
  - simpl in Hrun. destruct (step env a st0) as [st1|] eqn:Hstep; [|done].
    eapply IH; [|done]. by eapply step_gate_valid.
Qed.

(** Once a call has left [serverReady], no schedule makes it poll or
    resolve the gate again. *)
Lemma run_past_polling acts st st' t k :
  tasks st !! t = Some k ->
  past_polling k = true ->
  run env acts st = Some st' ->
  polls t st' = polls t st /\ resolutions t st' = resolutions t st.
Proof.
  revert st k. induction acts as [|a acts IH]; intros st k Ht Hk Hrun.
  - by injection Hrun as <-.
  - simpl in Hrun. destruct (step env a st) as [st1|] eqn:Hstep; [|done].
    destruct (step_past_polling a st st1 t k Ht Hk Hstep)
      as ((k1 & Ht1 & Hk1) & Hp & Hr).
    destruct (IH st1 k1 Ht1 Hk1 Hrun) as [Hp' Hr']. split; congruence.
Qed.

End Afterwards.

(** ** Readiness polling *)

Lemma count_sleeps t k : count_events (is_sleep_of t) (repeat (EvSleep t 100) k) = k.
Proof.
  induction k as [|k IH]; simpl; [done|].
  by rewrite bool_decide_eq_true_2, IH.
Qed.

Lemma count_resolves_in_sleeps t k :
  count_events (is_resolve_of t) (repeat (EvSleep t 100) k) = 0.
Proof. induction k as [|k IH]; simpl; done. Qed.

Section Polling.
Variable env : Env.

(** C9: a call of [start] gets its client from the factory; the client's
    [initializeResult] is found empty by the first [k + 1] polls and is set
    before the next one.  Then [serverReady] returns after exactly [k + 1]
    sleeps of 100 ms each followed by one [resolve] of the gate; a pending
    gate is resolved by it; and whatever happens later, this call neither
    sleeps in the loop nor resolves the gate again. *)
Theorem serverReady_polls_then_resolves st t r k :
  tasks st !! t = Some (AwaitFactory r) ->
  exists st',
    run env (ClientCreated t :: repeat (TimerFired t) k
               ++ [ClientInitialized (length (clients st)); TimerFired t]) st
      = Some st'
    /\ trace st' = trace st ++ [EvClientStart t (length (clients st))]
                     ++ repeat (EvSleep t 100) (S k)
                     ++ [EvGateResolve t (startupCompleted (this st))]
    /\ tasks st' !! t = Some (AwaitServerReady r)
    /\ (current_gate st = Some Pending -> current_gate st' = Some Resolved)
    /\ forall acts st'',
         run env acts st' = Some st'' ->
         polls t st'' = polls t st + S k
         /\ resolutions t st'' = resolutions t st + 1.
Proof.
  intros Ht. destruct_state st. simpl in Ht. cbn [run].
  rewrite (step_ClientCreated env t r) by done.
  rewrite (run_until_ready env k t r); cycle 1.
  { apply lookup_insert_eq. }
  { by rewrite lookup_app_r, Nat.sub_diag by lia. }
  eexists. split; [reflexivity|]. simpl.
  split; [by rewrite <- !app_assoc|].
  split; [apply lookup_insert_eq|].
  split.
  { unfold current_gate. simpl. intros Hg.
    rewrite list_lookup_alter_eq, Hg. done. }
  intros acts st'' Hrun.
  eapply run_past_polling in Hrun as [-> ->];
    [|apply lookup_insert_eq|done].
  unfold polls, resolutions. simpl.
  rewrite !count_events_app, count_sleeps, count_resolves_in_sleeps. simpl.
  rewrite !bool_decide_eq_true_2 by done. lia.
Qed.

(** C2: [dispose] returns while a call of [start] sleeps in the readiness
    loop.  When the timer fires the call leaves the loop, and when it goes
    on after [await this.serverReady()] the flag is set and it returns: the
    only call it has made since [dispose] is the [resolve] of the gate, no
    field has changed, the list is empty and the client handle is
    undefined. *)
Theorem dispose_during_poll st st1 t r :
  tasks st !! t = Some (AwaitSleep r) ->
  dispose env st = (Returned tt, st1) ->
  exists st2 st3,
    step env (TimerFired t) st1 = Some st2
    /\ tasks st2 !! t = Some (AwaitServerReady r)
    /\ disposed (this st2) = true
    /\ step env (Continue t) st2 = Some st3
    /\ tasks st3 !! t = Some Completed
    /\ this st3 = this st1
    /\ languageClient (this st3) = None
    /\ disposables (this st3) = []
    /\ trace st3 = trace st1 ++ [EvGateResolve t (startupCompleted (this st1))].
Proof.
  intros Ht. destruct_state st. simpl in Ht. rewrite dispose_run. simpl.
  destruct (drain_outcome env _) as [[]|e] eqn:Hout; [|done].
  apply drain_outcome_returned, drain_all in Hout as [_ Hl]. rewrite Hl.
  destruct (settled_at _ _); intros [= <-].
  all: eexists _, _; split; [by apply (step_TimerFired_ready env t r)|]; simpl.
  all: split; [apply lookup_insert_eq|]; split; [done|].
  all: unfold step; simpl; rewrite lookup_insert_eq.
  all: unfold settle, start_after_ready; eff_unfold; simpl.
  all: split; [reflexivity|]; simpl; rewrite lookup_insert_eq; done.
Qed.

(** The same when [dispose] comes after the gate was resolved and before
    the call goes on: with the flag set, the call returns at line 101 and
    touches nothing. *)
Lemma continue_when_disposed st t r :
  tasks st !! t = Some (AwaitServerReady r) ->
  disposed (this st) = true ->
  step env (Continue t) st = Some (with_tasks (<[t := Completed]>) st).
Proof.
  intros Ht Hd. unfold step. rewrite Ht.
  unfold settle, start_after_ready. eff_unfold. by rewrite Hd.
Qed.

End Polling.

(** ** Entering [start] *)

Section Entering.
Variable env : Env.

(** Lines 89-90 with no client: the directory is looked up. *)
Lemma step_CallStart_no_client t r i o g cs ds dd v gs cls n tk tr :
  tk !! t = None ->
  step env (CallStart t r i o) (mkState (mkFields None g cs ds dd v) gs cls n tk tr)
  = Some (mkState (mkFields None g cs ds dd v) gs cls n
            (<[t := AwaitDirectory r i o]> tk) (tr ++ [EvGetDirectory t])).
Proof. intros Ht. unfold step. simpl. by rewrite Ht. Qed.

(** Lines 133-134 with a client: the call waits on the current gate. *)
Lemma step_CallStart_client t r i o c g cs ds dd v gs cls n tk tr :
  tk !! t = None ->
  step env (CallStart t r i o) (mkState (mkFields (Some c) g cs ds dd v) gs cls n tk tr)
  = Some (mkState (mkFields (Some c) g cs ds dd v) gs cls n
            (<[t := AwaitGate g]> tk) tr).
Proof. intros Ht. unfold step. simpl. by rewrite Ht. Qed.

(** Lines 91-96: every call that gets here calls the factory. *)
Lemma step_DirectoryResolved t r i o ver lc g cs ds dd v gs cls n tk tr :
  tk !! t = Some (AwaitDirectory r i o) ->
  step env (DirectoryResolved t ver) (mkState (mkFields lc g cs ds dd v) gs cls n tk tr)
  = Some (mkState (mkFields lc g (Some n) ds dd ver) gs cls (S n)
            (<[t := AwaitFactory r]> tk)
            (tr ++ [EvNewCancellationStrategy t n;
                    EvCreateLanguageClient t r i (mkOptions (Some n))])).
Proof.
  intros Ht. unfold step. simpl. rewrite Ht.
  unfold settle, start_after_directory. eff_unfold. simpl.
  by rewrite <- app_assoc.
Qed.



End Entering.

(** ** Calls of [start] made before the first has a client *)

Section Concurrent.
Variable env : Env.
Import Scenario.

(** While no client is set, each new call looks the directory up. *)
Lemma run_concurrent_starts n : forall base st,
  languageClient (this st) = None ->
  (forall t, base <= t -> tasks st !! t = None) ->
  exists st',
    run env (concurrent_starts base n) st = Some st'
    /\ languageClient (this st') = None
    /\ factory_calls st' = factory_calls st
    /\ (forall t, base <= t < base + n ->
          tasks st' !! t = Some (AwaitDirectory None None options0))
    /\ (forall t, t < base -> tasks st' !! t = tasks st !! t).
Proof.
  induction n as [|n IH]; intros base st Hlc Hfree.
  - exists st. repeat split; try done. intros; lia.
  - destruct_state st. simpl in Hlc, Hfree. subst lc.
    unfold concurrent_starts. cbn [seq fmap list_fmap run].
    rewrite step_CallStart_no_client by (apply Hfree; lia).
    edestruct (IH (S base)) as (st' & Hrun & Hlc' & Hf & Hin & Hlow);
      [| |unfold concurrent_starts in Hrun; rewrite Hrun]; simpl.
    + done.
    + intros t Ht. rewrite lookup_insert_ne by lia. apply Hfree. lia.
    + exists st'. split; [done|]. split; [done|]. split.
      { rewrite Hf. unfold factory_calls. simpl.
        rewrite count_events_app. simpl. lia. }
      split.
      * intros t Ht. destruct (decide (t = base)) as [->|Hne].
        -- rewrite Hlow by lia. simpl. apply lookup_insert_eq.
        -- apply Hin. lia.
      * intros t Ht. rewrite Hlow by lia. simpl.
        apply lookup_insert_ne. lia.
Qed.

(** Each of these calls, going on after line 90, calls the factory: the
    client handle is still unset, and nothing in lines 91-96 looks at it. *)
Lemma run_directories_resolved n : forall base st,
  (forall t, base <= t < base + n ->
     tasks st !! t = Some (AwaitDirectory None None options0)) ->
  exists st',
    run env (directories_resolved base n) st = Some st'
    /\ languageClient (this st') = languageClient (this st)
    /\ factory_calls st' = factory_calls st + n
    /\ (forall t, base <= t < base + n -> tasks st' !! t = Some (AwaitFactory None))
    /\ (forall t, t < base -> tasks st' !! t = tasks st !! t).
Proof.
  induction n as [|n IH]; intros base st Hin.
  - exists st. repeat split; try done; try (intros; lia).
  - destruct_state st. simpl in Hin.
    unfold directories_resolved. cbn [seq fmap list_fmap run].
    rewrite (step_DirectoryResolved env base None None options0)
      by (apply Hin; lia).
    edestruct (IH (S base)) as (st' & Hrun & Hlc' & Hf & Hin' & Hlow);
      [|unfold directories_resolved in Hrun; rewrite Hrun]; simpl.
    + intros t Ht. rewrite lookup_insert_ne by lia. apply Hin. lia.
    + exists st'. split; [done|]. split; [done|]. split.
      { rewrite Hf. unfold factory_calls. simpl.
        rewrite count_events_app. simpl. lia. }
      split.
      * intros t Ht. destruct (decide (t = base)) as [->|Hne].
        -- rewrite Hlow by lia. simpl. apply lookup_insert_eq.
        -- apply Hin'. lia.
      * intros t Ht. rewrite Hlow by lia. simpl.
        apply lookup_insert_ne. lia.
Qed.

(** C1 on the code: [n] calls of [start] are made on a new proxy before
    any of them has gone past its first [await].  Once their directory
    lookups are over, [factory.createLanguageClient] has been called [n]
    times, once by each call, and each call waits for a client of its
    own. *)
Theorem concurrent_starts_call_factory_each n :
  exists st,
    run env (concurrent_starts 0 n ++ directories_resolved 0 n) constructed = Some st
    /\ factory_calls st = n
    /\ forall t, t < n -> tasks st !! t = Some (AwaitFactory None).
Proof.
  destruct (run_concurrent_starts n 0 constructed) as (st1 & Hrun1 & _ & Hf1 & Hin1 & _);
    [done | done |].
  destruct (run_directories_resolved n 0 st1) as (st2 & Hrun2 & _ & Hf2 & Hin2 & _);
    [done|].
  exists st2. rewrite run_app, Hrun1. simpl. split; [done|]. split.
  - rewrite Hf2, Hf1. done.
  - intros t Ht. apply Hin2. lia.
Qed.

End Concurrent.

(** C1 at two calls, run to the end: the factory is called twice, the first
    client is replaced by the second and is never stopped, both calls wire
    themselves to the second client, and [dispose] stops only that one. *)
Lemma two_concurrent_starts :
  let st := Scenario.after Scenario.quiet
              [CallStart 0 None None Scenario.options0;
               CallStart 1 None None Scenario.options0;
               DirectoryResolved 0 None; DirectoryResolved 1 None;
               ClientCreated 0; ClientCreated 1;
               ClientInitialized 0; ClientInitialized 1;
               TimerFired 0; TimerFired 1; Continue 0; Continue 1;
               Continue 0; Continue 1; CallDispose] in
  factory_calls st = 2
  /\ tasks st !! 0 = Some Completed
  /\ tasks st !! 1 = Some Completed
  /\ count_events (fun ev => bool_decide (ev = EvClientStop 0)) (trace st) = 0
  /\ count_events (fun ev => bool_decide (ev = EvClientStop 1)) (trace st) = 1.
Proof. vm_compute. done. Qed.

(** A call made while a client is set takes the other branch: no factory
    call, and it goes on only once the gate it read has settled. *)
Lemma start_joins_session env t r i o st c :
  languageClient (this st) = Some c ->
  tasks st !! t = None ->
  exists st',
    step env (CallStart t r i o) st = Some st'
    /\ factory_calls st' = factory_calls st
    /\ tasks st' !! t = Some (AwaitGate (startupCompleted (this st)))
    /\ (current_gate st = Some Pending -> step env (Continue t) st' = None).
Proof.
  intros Hlc Ht. destruct_state st. simpl in Hlc, Ht. subst.
  eexists. split; [by apply step_CallStart_client|]. split; [done|]. simpl.
  split; [apply lookup_insert_eq|].
  unfold current_gate. simpl. intros Hg.
  unfold step. simpl. rewrite lookup_insert_eq. by rewrite Hg.
Qed.

(** ** The telemetry relay *)

Section RelayFacts.
Import Telemetry.

Lemma replace_slashes_get s i :
  String.get i (replace_slashes s)
  = (fun c => if Ascii.eqb c "/" then "."%char else c) <$> String.get i s.
Proof.
  revert i. induction s as [|c s IH]; intros i; simpl; [done|].
  destruct i as [|i]; simpl; [done | apply IH].
Qed.

Lemma replace_slashes_length s :
  String.length (replace_slashes s) = String.length s.
Proof. induction s as [|c s IH]; simpl; [done | by rewrite IH]. Qed.

Example replace_slashes_abc : replace_slashes "a/b/c" = "a.b.c".
Proof. reflexivity. Qed.

Context {Measurements : Type}.
Variable LANGUAGE_SERVER_TELEMETRY : string.

(** C6: the event has a [Properties] object.  If its [method] is a string,
    the relay returns and the [method] it sends is that string with each
    '/' replaced by '.' and every other character kept; if there is no
    [method], the relay returns and [method] reads as undefined in what it
    sends.  In both cases every other property, and the measurements, are
    sent as they came. *)
Theorem relay_sanitizes_method (ev : @TelemetryEvent Measurements) props :
  Properties ev = Some props ->
  (props !! "method" = None \/ exists m, props !! "method" = Some (JString m)) ->
  exists sent,
    relay LANGUAGE_SERVER_TELEMETRY ev = Returned sent
    /\ (forall m, props !! "method" = Some (JString m) ->
          get (sent_properties sent) "method" = JString (replace_slashes m)
          /\ forall i, String.get i (replace_slashes m)
               = (fun c => if Ascii.eqb c "/" then "."%char else c) <$> String.get i m)
    /\ (props !! "method" = None ->
          get (sent_properties sent) "method" = JUndefined)
    /\ (forall key, key <> "method" -> sent_properties sent !! key = props !! key)
    /\ sent_measurements sent = Measurements_ ev.
Proof.
  intros Hp Hm. unfold relay. rewrite Hp. unfold get at 1.
  destruct Hm as [Hm|[m Hm]]; rewrite Hm; simpl.
  - eexists. split; [reflexivity|]. simpl. unfold get.
    split; [done|].
    split; [by rewrite lookup_insert_eq|].
    split; [intros key Hk; by rewrite lookup_insert_ne | done].
  - eexists. split; [reflexivity|]. simpl. unfold get.
    split.
    { intros m' [= <-]. rewrite lookup_insert_eq. simpl.
      split; [done | apply replace_slashes_get]. }
    split; [done|].
    split; [intros key Hk; by rewrite lookup_insert_ne | done].
Qed.

(** What the relay does not survive: no [Properties] object, or a [method]
    that is a number. *)
Lemma relay_throws_without_properties (ev : @TelemetryEvent Measurements) :
  Properties ev = None ->
  relay LANGUAGE_SERVER_TELEMETRY ev
  = Threw "TypeError: Cannot read property 'method' of undefined".
Proof. intros Hp. unfold relay. by rewrite Hp. Qed.

(** The event name: the event's own if it is truthy, else the constant. *)
Lemma relay_event_name (ev : @TelemetryEvent Measurements) sent :
  relay LANGUAGE_SERVER_TELEMETRY ev = Returned sent ->
  sent_eventName sent
  = if truthy (EventName ev) then EventName ev
    else JString LANGUAGE_SERVER_TELEMETRY.
Proof.
  unfold relay. destruct (Properties ev) as [props|]; [|done].
  destruct (optional_replace _); [|done]. by intros [= <-].
Qed.

End RelayFacts.

Lemma relay_sanitizes_method_witness :
  exists sent,
    Telemetry.relay "LANGUAGE_SERVER.EVENT" Telemetry.with_method = Returned sent
    /\ Telemetry.get (Telemetry.sent_properties sent) "method" = Telemetry.JString "a.b.c"
    /\ Telemetry.get (Telemetry.sent_properties sent) "lsVersion"
       = Telemetry.JString "0.5.59".
Proof.
  destruct (relay_sanitizes_method "LANGUAGE_SERVER.EVENT" Telemetry.with_method
              (<["method" := Telemetry.JString "a/b/c"]>
                 {["lsVersion" := Telemetry.JString "0.5.59"]}) eq_refl)
    as (sent & Hrun & Hm & _ & Hother & _).
  - right. exists "a/b/c". vm_compute. reflexivity.
  - exists sent. split; [exact Hrun|]. split.
    + destruct (Hm "a/b/c") as [-> _]; [vm_compute; reflexivity | reflexivity].
    + unfold Telemetry.get. rewrite Hother by done. vm_compute. reflexivity.
Defined.

Example relay_without_method :
  exists sent,
    Telemetry.relay "LANGUAGE_SERVER.EVENT" Telemetry.without_method = Returned sent
    /\ Telemetry.sent_properties sent !! "method" = Some Telemetry.JUndefined
    /\ Telemetry.sent_properties sent !! "lsVersion" = Some (Telemetry.JString "0.5.59")
    /\ Telemetry.sent_eventName sent = Telemetry.JString "LANGUAGE_SERVER.EVENT".
Proof. eexists. split; [reflexivity|]. vm_compute. done. Qed.

(** ** Witnesses for the machine *)

Section MachineExamples.
Import Scenario.

Lemma serverReady_polls_then_resolves_witness :
  let st := after quiet [CallStart 0 None None options0; DirectoryResolved 0 None] in
  exists st',
    run quiet (ClientCreated 0 :: repeat (TimerFired 0) 2
                 ++ [ClientInitialized 0; TimerFired 0]) st = Some st'
    /\ polls 0 st' = 3
    /\ resolutions 0 st' = 1
    /\ current_gate st' = Some Resolved.
Proof.
  intros st.
  destruct (serverReady_polls_then_resolves quiet st 0 None 2)
    as (st' & Hrun & _ & _ & Hgate & Hlater).
  - vm_compute. reflexivity.
  - exists st'. split; [exact Hrun|].
    destruct (Hlater [] st' eq_refl) as [-> ->].
    split; [reflexivity|]. split; [reflexivity|].
    apply Hgate. vm_compute. reflexivity.
Defined.

Lemma dispose_during_poll_witness :
  let st := after wired [CallStart 0 None None options0; DirectoryResolved 0 None;
                         ClientCreated 0] in
  exists st3,
    run wired [CallDispose; TimerFired 0; Continue 0] st = Some st3
    /\ tasks st3 !! 0 = Some Completed
    /\ languageClient (this st3) = None
    /\ disposables (this st3) = [].
Proof.
  intros st.
  destruct (dispose_during_poll wired st (dispose wired st).2 0 None)
    as (st2 & st3 & H1 & _ & _ & H2 & Ht & _ & Hlc & Hds & _).
  - vm_compute. reflexivity.
  - vm_compute. reflexivity.
  - exists st3. cbn [run].
    change (step wired CallDispose st) with (Some (dispose wired st).2).
    cbv beta iota. rewrite H1, H2. done.
Defined.


End MachineExamples.

(** ** The export dependency checker *)

Section ExportFacts.
Import ExportChecker.
Context {World Uri ExportFormat INotebookModel : Type}.
Variable manager_export : ExportFormat -> INotebookModel -> Eff World (option Uri).
Variable isImportSupported : Eff World bool.
Variable installMissingDependencies : Eff World unit.
Variable jupyterNbConvertNotSupported : string.

Local Abbreviation export_ :=
  (export manager_export isImportSupported installMissingDependencies
     jupyterNbConvertNotSupported).

(** C10: the first check returns [first]; if it is false, the install is
    called (and returns), and otherwise it is not called; the second check
    returns [second].  Then the calls [export] makes are the first check,
    the install exactly when [first] is false, the second check, and
    [manager.export(format, model)] exactly when [second] is true; in that
    case [export] ends as that call ends, and otherwise it throws the
    localized error. *)
Theorem export_checks_then_delegates format model w log first w1 w2 second w3 :
  isImportSupported w = (Returned first, w1) ->
  (if first then w2 = w1 else installMissingDependencies w1 = (Returned tt, w2)) ->
  isImportSupported w2 = (Returned second, w3) ->
  export_ format model (w, log)
  = (if second then (manager_export format model w3).1
     else Threw jupyterNbConvertNotSupported,
     (if second then (manager_export format model w3).2 else w3,
      log ++ [IsImportSupported]
          ++ (if first then [] else [InstallMissingDependencies])
          ++ [IsImportSupported]
          ++ (if second then [ManagerExport format model] else []))).
Proof.
  intros H1 Hinst H2. unfold export, bind, call, ret, throw. simpl.
  rewrite H1. destruct first; simpl.
  - subst w2. rewrite H2. destruct second; simpl.
    + destruct (manager_export format model w3). simpl.
      by rewrite <- ?app_assoc.
    + by rewrite ?app_nil_r, <- ?app_assoc.
  - rewrite Hinst. simpl. rewrite H2. destruct second; simpl.
    + destruct (manager_export format model w3). simpl.
      by rewrite <- ?app_assoc.
    + by rewrite ?app_nil_r, <- ?app_assoc.
Qed.

(** A check that throws ends [export] with that error. *)
Lemma export_first_check_throws format model w log e w1 :
  isImportSupported w = (Threw e, w1) ->
  export_ format model (w, log) = (Threw e, (w1, log ++ [IsImportSupported])).
Proof. intros H1. unfold export, bind, call. simpl. by rewrite H1. Qed.

End ExportFacts.

Lemma export_checks_then_delegates_witness :
  ExportChecker.Installable.checker ExportChecker.Installable.pdf "notebook" (false, [])
  = (Returned (Some "notebook.out"),
     (true, [ExportChecker.IsImportSupported; ExportChecker.InstallMissingDependencies;
             ExportChecker.IsImportSupported;
             ExportChecker.ManagerExport ExportChecker.Installable.pdf "notebook"])).
Proof.
  exact (export_checks_then_delegates
           ExportChecker.Installable.manager_export
           ExportChecker.Installable.isImportSupported
           ExportChecker.Installable.installMissingDependencies
           "Jupyter nbconvert is not installed"
           ExportChecker.Installable.pdf "notebook" false [] false false true true true
           eq_refl eq_refl eq_refl).
Defined.

(** * Further properties of the session *)

Import Session.

Ltac unfold_start_in H :=
  unfold settle, start_entry, start_after_directory, start_after_factory,
    start_after_ready, serverReady, registerTestServices, swallowExceptions,
    registerTestServices_body in H; eff_unfold; simpl in H.

Section Disposed.
Variable env : Env.

(** One step from a disposed proxy: the flag stays, and nothing of lines
    103-132 is called. *)
Lemma step_disposed a st st' :
  disposed (this st) = true ->
  step env a st = Some st' ->
  disposed (this st') = true /\ subsidiary_calls st' = subsidiary_calls st.
Proof.
  intros Hd Hstep. unfold subsidiary_calls.
  destruct a as [t' r i o| |t' ver|t' e|t'|t' e|c|t'|t']; simpl in Hstep.
  2: { injection Hstep as <-. rewrite dispose_count by done. split; [|done].
       destruct_state st. rewrite dispose_run. simpl in *. subst.
       destruct (drain_outcome env _) as [[]|e]; [destruct (settled_at _ _)|]; done. }
  6: { case_decide; [|done]. by injection Hstep as <-. }
  all: destruct_state st; simpl in *; subst.
  all: unfold_start_in Hstep.
  all: repeat (case_match; simplify_eq; simpl in * ).
  all: simplify_eq; simpl.
  all: rewrite ?count_events_app; simpl.
  all: split; [done | lia].
Qed.

(** X1: the flag [disposed] is never reset: once it is set, it stays set
    under every schedule of calls and events. *)
Theorem disposed_is_permanent acts st st' :
  disposed (this st) = true ->
  run env acts st = Some st' ->
  disposed (this st') = true.
Proof.
  revert st. induction acts as [|a acts IH]; intros st Hd Hrun.
  - by injection Hrun as <-.
  - simpl in Hrun. destruct (step env a st) as [st1|] eqn:Hstep; [|done].
    apply (IH st1); [|done]. by destruct (step_disposed a st st1 Hd Hstep).
Qed.

(** X2: once the flag is set, no call of [start], old or new, makes progress
    reporting, subscribes to path changes, attaches the telemetry relay or
    activates the test manager, under every schedule. *)
Theorem no_wiring_once_disposed acts st st' :
  disposed (this st) = true ->
  run env acts st = Some st' ->
  subsidiary_calls st' = subsidiary_calls st.
Proof.
  revert st. induction acts as [|a acts IH]; intros st Hd Hrun.
  - by injection Hrun as <-.
  - simpl in Hrun. destruct (step env a st) as [st1|] eqn:Hstep; [|done].
    destruct (step_disposed a st st1 Hd Hstep) as [Hd1 <-].
    by apply (IH st1).
Qed.

End Disposed.

Section Ordering.
Variable env : Env.

Lemma step_progress a st st' t :
  progress_of (tasks st !! t) (resolutions t st) (wirings t st) ->
  step env a st = Some st' ->
  progress_of (tasks st' !! t) (resolutions t st') (wirings t st').
Proof.
  intros Hinv Hstep. unfold resolutions, wirings in *.
  destruct a as [t' r i o| |t' ver|t' e|t'|t' e|c|t'|t']; simpl in Hstep.
  2: { injection Hstep as <-. by rewrite dispose_tasks, !dispose_count. }
  6: { case_decide; [|done]. by injection Hstep as <-. }
  all: destruct_state st; simpl in *.
  all: destruct (decide (t' = t)) as [->|Hne].
  all: unfold_start_in Hstep.
  all: repeat (case_match; simplify_eq; simpl in * ).
  all: simplify_eq; simpl.
  all: rewrite ?lookup_insert_eq, ?lookup_insert_ne by done.
  all: rewrite ?count_events_app; simpl.
  all: rewrite ?bool_decide_eq_false_2 by done.
  all: rewrite ?bool_decide_eq_true_2 by done.
  all: rewrite ?Nat.add_0_r.
  all: try done.
  all: try (repeat case_match; simpl in *; lia).
Qed.

Lemma run_progress acts st st' t :
  progress_of (tasks st !! t) (resolutions t st) (wirings t st) ->
  run env acts st = Some st' ->
  progress_of (tasks st' !! t) (resolutions t st') (wirings t st').
Proof.
  revert st. induction acts as [|a acts IH]; intros st Hinv Hrun.
  - by injection Hrun as <-.
  - simpl in Hrun. destruct (step env a st) as [st1|] eqn:Hstep; [|done].
    apply (IH st1); [|done]. by eapply step_progress.
Qed.

(** X3: at every point of every schedule from a new proxy, a call of [start]
    has resolved the gate at most once and made its progress reporting at
    most once, and never the second without the first: no call wires
    anything before it has itself resolved the gate. *)
Theorem wiring_only_after_own_resolve acts st t :
  run env acts constructed = Some st ->
  wirings t st <= resolutions t st /\ resolutions t st <= 1.
Proof.
  intros Hrun.
  assert (progress_of (tasks st !! t) (resolutions t st) (wirings t st)) as Hinv.
  { eapply run_progress; [|done]. simpl. rewrite lookup_empty. done. }
  destruct (tasks st !! t) as [[]|]; simpl in Hinv; lia.
Qed.

Lemma step_not_rejected a st st' :
  Forall not_rejected (gates st) ->
  step env a st = Some st' ->
  Forall not_rejected (gates st').
Proof.
  intros Hinv Hstep.
  assert (forall g, Forall not_rejected (alter resolve g (gates st))) as Hres.
  { intros g. apply Forall_alter; [done|]. by intros []. }
  destruct a as [t' r i o| |t' ver|t' e|t'|t' e|c|t'|t']; simpl in Hstep.
  2: { injection Hstep as <-. destruct_state st. rewrite dispose_run. simpl in *.
       destruct (drain_outcome env _) as [[]|e]; [destruct (settled_at _ _)|];
         simpl; try done. apply Forall_app. split; [done|]. by constructor. }
  6: { case_decide; [|done]. by injection Hstep as <-. }
  all: destruct_state st; simpl in *.
  all: unfold_start_in Hstep.
  all: repeat (case_match; simplify_eq; simpl in * ).
  all: simplify_eq; simpl.
  all: done.
Qed.

(** X8: from a new proxy, under every schedule, no readiness gate is ever
    rejected: the error 'Disposed Language Server' reaches nobody, and a
    call waiting on the gate, once it can go on, completes without error. *)
Theorem no_gate_is_ever_rejected acts st :
  run env acts constructed = Some st ->
  (forall g d, gates st !! g = Some d -> d = Pending \/ d = Resolved)
  /\ (forall t g st', tasks st !! t = Some (AwaitGate g) ->
        step env (Continue t) st = Some st' ->
        tasks st' !! t = Some Completed).
Proof.
  intros Hrun.
  assert (Forall not_rejected (gates st)) as Hinv.
  { assert (Forall not_rejected (gates constructed)) as H0
      by (repeat constructor).
    revert H0 Hrun. generalize constructed.
    induction acts as [|a acts IH]; intros st0 H0 Hrun.
    - by injection Hrun as <-.
    - simpl in Hrun. destruct (step env a st0) as [st1|] eqn:Hstep; [|done].
      apply (IH st1); [|done]. by eapply step_not_rejected. }
  assert (forall g d, gates st !! g = Some d -> d = Pending \/ d = Resolved) as Hg.
  { intros g d Hd. eapply Forall_lookup_1 in Hinv; [|done].
    destruct d; simpl in Hinv; tauto. }
  split; [done|].
  intros t g st' Ht. unfold step. rewrite Ht.
  destruct (gates st !! g) as [d|] eqn:Hd; [|done].
  destruct (Hg g d Hd) as [-> | ->]; [done|].
  intros [= <-]. unfold settle, ret, with_tasks. simpl. apply lookup_insert_eq.
Qed.

(** X16: a step in which a call resolves the gate starts from a state in
    which the client in the field has its [initializeResult], or in which
    there is no client: the gate is never resolved while the current
    client's handshake is still open. *)
Theorem gate_resolved_only_when_ready a st st' t :
  step env a st = Some st' ->
  resolutions t st < resolutions t st' ->
  match languageClient (this st) with
  | Some c => clients st !! c = Some true
  | None => True
  end.
Proof.
  intros Hstep. unfold resolutions. pose proof Hstep as Hstep0.
  destruct a as [t' r i o| |t' ver|t' e|t'|t' e|c|t'|t']; simpl in Hstep.
  2: { injection Hstep as <-. rewrite dispose_count by done. lia. }
  6: { case_decide; [|done]. injection Hstep as <-. simpl. lia. }
  4: { destruct (tasks st !! t') as [[]|] eqn:Ht; try done.
       destruct_state st. simpl in Ht.
       rewrite (step_ClientCreated env t' r) in Hstep0 by done.
       injection Hstep0 as <-. simpl. rewrite count_events_app. simpl. lia. }
  all: clear Hstep0; destruct_state st; simpl in *.
  all: unfold_start_in Hstep.
  all: repeat (case_match; simplify_eq; simpl in * ).
  all: simplify_eq; simpl.
  all: rewrite ?count_events_app; simpl.
  all: try lia.
  all: intros _.
  all: try done.
  by destruct (cls !! n0) as [[]|].
Qed.

End Ordering.

Section Unwinding.
Variable env : Env.

Lemma attempted_left_over ds : attempted env ds ++ left_over env ds = ds.
Proof.
  induction ds as [|d ds IH]; simpl; [done|].
  destruct (dispose_throws env d); simpl; [done | by rewrite IH].
Qed.

Lemma count_dispose_events p ds :
  (forall d, p (EvDisposableDispose d) = false) ->
  count_events p (EvDisposableDispose <$> ds) = 0.
Proof. intros Hp. apply count_events_none, Forall_fmap, Forall_true. intros d. apply Hp. Qed.

(** X4: however [dispose] ends, with a return or with the exception of a
    list entry, the client handle and the cancellation strategy are cleared,
    the client that was in the field has been stopped once and the strategy
    that was in the field disposed once, and no other client or strategy has
    been touched. *)
Theorem dispose_always_clears_handles st :
  let st' := (dispose env st).2 in
  languageClient (this st') = None
  /\ cancellationStrategy (this st') = None
  /\ (forall c, count_events (is_stop_of c) (trace st')
        = count_events (is_stop_of c) (trace st)
          + (if decide (languageClient (this st) = Some c) then 1 else 0))
  /\ (forall s, count_events (is_strategy_dispose_of s) (trace st')
        = count_events (is_strategy_dispose_of s) (trace st)
          + (if decide (cancellationStrategy (this st) = Some s) then 1 else 0)).
Proof.
  destruct_state st. rewrite dispose_run. simpl.
  assert (forall c, count_events (is_stop_of c) (handle_events lc cs)
                    = if decide (lc = Some c) then 1 else 0) as Hstop.
  { intros c. destruct lc as [c'|], cs; simpl; repeat case_decide; simplify_eq;
      rewrite ?bool_decide_eq_true_2, ?bool_decide_eq_false_2 by congruence; done. }
  assert (forall s, count_events (is_strategy_dispose_of s) (handle_events lc cs)
                    = if decide (cs = Some s) then 1 else 0) as Hstrat.
  { intros s. destruct lc, cs as [s'|]; simpl; repeat case_decide; simplify_eq;
      rewrite ?bool_decide_eq_true_2, ?bool_decide_eq_false_2 by congruence; done. }
  destruct (drain_outcome env _) as [[]|e]; [destruct (settled_at _ _)|]; simpl.
  all: split; [done|]; split; [done|]; split; intros x.
  all: rewrite !count_events_app, ?Hstop, ?Hstrat, count_dispose_events by done.
  all: simpl; lia.
Qed.

(** X5: [dispose] sets the flag [disposed] exactly when it returns.  When a
    list entry throws, the flag, the gate field and every deferred object
    are as they were before the call. *)
Theorem dispose_sets_flag_iff_returned st :
  let r := dispose env st in
  match r.1 with
  | Returned _ => disposed (this r.2) = true
  | Threw _ =>
      disposed (this r.2) = disposed (this st)
      /\ startupCompleted (this r.2) = startupCompleted (this st)
      /\ gates r.2 = gates st
  end.
Proof.
  destruct_state st. rewrite dispose_run. simpl.
  destruct (drain_outcome env _) as [[]|e]; [destruct (settled_at _ _)|]; done.
Qed.

(** X6: [dispose] loses no list entry and releases none twice: the entries
    released so far followed by the entries still in the list are the same
    sequence before and after the call, however the call ends. *)
Theorem dispose_conserves_entries st :
  let st' := (dispose env st).2 in
  released (trace st') ++ disposables (this st')
  = released (trace st) ++ disposables (this st).
Proof.
  simpl. destruct (dispose_released env st) as (-> & -> & _).
  by rewrite <- app_assoc, attempted_left_over.
Qed.

(** X7: a call of [start] sleeps in the readiness loop and another call
    waits on the pending gate.  After a [dispose] that returns, the next poll
    of the first call resolves that gate, and the waiting call then
    completes: it is released with success, by the poll and not by
    [dispose]. *)
Theorem waiter_released_by_next_poll st st1 t u r :
  tasks st !! t = Some (AwaitSleep r) ->
  tasks st !! u = Some (AwaitGate (startupCompleted (this st))) ->
  current_gate st = Some Pending ->
  dispose env st = (Returned tt, st1) ->
  step env (Continue u) st1 = None
  /\ exists st2,
       run env [TimerFired t; Continue u] st1 = Some st2
       /\ tasks st2 !! u = Some Completed
       /\ gates st2 !! startupCompleted (this st) = Some Resolved.
Proof.
  intros Ht Hu Hg. destruct_state st. unfold current_gate in Hg.
  simpl in Ht, Hu, Hg. cbn [this startupCompleted].
  assert (t <> u) as Hne by congruence.
  intros Hd. rewrite dispose_run in Hd. simpl in Hd.
  unfold settled_at in Hd. rewrite Hg in Hd. simpl in Hd.
  destruct (drain_outcome env _) as [[]|e]; [|done]. injection Hd as <-.
  split.
  { unfold step. simpl. by rewrite Hu, Hg. }
  cbn [run]. rewrite (step_TimerFired_ready env t r) by done.
  unfold step. simpl. rewrite lookup_insert_ne, Hu by done.
  rewrite list_lookup_alter_eq, Hg. simpl.
  eexists. split; [reflexivity|]. simpl.
  split; [apply lookup_insert_eq|].
  by rewrite list_lookup_alter_eq, Hg.
Qed.

End Unwinding.

Section Wiring.
Variable env : Env.

(** Lines 99-132 for a call whose proxy is not disposed and has a client. *)
Lemma step_Continue_wires t r c g cs ds v gs cls n tk tr :
  tk !! t = Some (AwaitServerReady r) ->
  step env (Continue t) (mkState (mkFields (Some c) g cs ds false v) gs cls n tk tr)
  = Some (mkState (mkFields (Some c) g cs (ds ++ wiring_entries env t c) false v)
            gs cls n (<[t := AwaitTestServices]> tk)
            (tr ++ wiring_events env t r c)).
Proof.
  intros Ht. unfold step. simpl. rewrite Ht.
  unfold settle, start_after_ready, registerTestServices, swallowExceptions,
    registerTestServices_body, wiring_entries, wiring_events.
  eff_unfold. simpl.
  destruct (inExperiment env), (downloadLanguageServer env r),
    (activate_rejects env); simpl; rewrite <- ?app_assoc; done.
Qed.

(** X17: a call that goes on after [await this.serverReady()] with the flag
    unset and client [c] in the field pushes the progress reporting and, in
    the experiment only, the path-change subscription, in this order, behind
    the entries already in the list; it attaches the telemetry relay only if
    [downloadLanguageServer] is set for its resource; it activates the test
    manager last; and it touches no other field. *)
Theorem start_wires_in_order st t r c :
  tasks st !! t = Some (AwaitServerReady r) ->
  disposed (this st) = false ->
  languageClient (this st) = Some c ->
  exists st',
    step env (Continue t) st = Some st'
    /\ disposables (this st')
       = disposables (this st) ++ [ProgressReporting (Some c)]
           ++ (if inExperiment env then [PathChangeSubscription t] else [])
    /\ trace st'
       = trace st ++ [EvNewProgressReporting t (Some c)]
           ++ (if inExperiment env then [EvOnDidChange t] else [])
           ++ (if downloadLanguageServer env r then [EvOnTelemetry t c] else [])
           ++ [EvActivate c]
           ++ match activate_rejects env with
              | Some e => [EvTraceError "Activating Unit Tests Manager for Language Server" e]
              | None => []
              end
    /\ this st' = set_disposables (disposables (this st')) (this st)
    /\ gates st' = gates st
    /\ tasks st' !! t = Some AwaitTestServices.
Proof.
  intros Ht Hd Hlc. destruct_state st. simpl in Ht, Hd, Hlc. subst.
  eexists. split; [by apply step_Continue_wires|]. simpl.
  repeat split; try done. apply lookup_insert_eq.
Qed.

(** X11: a call that goes on after [await this.serverReady()] with the flag
    unset and a client in the field calls [testManager.activate] once and
    completes whether [activate] fulfils or rejects: a rejection is logged,
    as the last thing the call does, and the promise of [start] is
    fulfilled. *)
Theorem start_completes_when_activation_fails st t r c :
  tasks st !! t = Some (AwaitServerReady r) ->
  disposed (this st) = false ->
  languageClient (this st) = Some c ->
  exists st',
    run env [Continue t; Continue t] st = Some st'
    /\ tasks st' !! t = Some Completed
    /\ count_events (fun ev => bool_decide (ev = EvActivate c)) (trace st')
       = S (count_events (fun ev => bool_decide (ev = EvActivate c)) (trace st))
    /\ forall e, activate_rejects env = Some e ->
         last (trace st')
         = Some (EvTraceError "Activating Unit Tests Manager for Language Server" e).
Proof.
  intros Ht Hd Hlc. destruct_state st. simpl in Ht, Hd, Hlc. subst.
  cbn [run]. rewrite (step_Continue_wires t r) by done.
  unfold step. simpl. rewrite lookup_insert_eq.
  eexists. split; [reflexivity|]. unfold settle, ret, with_tasks. simpl.
  split; [apply lookup_insert_eq|].
  unfold wiring_events. split.
  - rewrite !count_events_app. simpl.
    destruct (inExperiment env), (downloadLanguageServer env r),
      (activate_rejects env); simpl;
      rewrite ?bool_decide_eq_true_2 by done; simpl; lia.
  - intros e ->. rewrite !app_assoc. apply last_snoc.
Qed.

(** X9: on a proxy that has a client and whose gate is resolved, a call of
    [start] completes at its first continuation and changes nothing: no
    factory call, no field written, no collaborator called. *)
Theorem start_on_ready_session st t r i o c :
  languageClient (this st) = Some c ->
  current_gate st = Some Resolved ->
  tasks st !! t = None ->
  run env [CallStart t r i o; Continue t] st
  = Some (with_tasks (<[t := Completed]>) st).
Proof.
  intros Hlc Hg Ht. destruct_state st. unfold current_gate in Hg.
  simpl in Hlc, Hg, Ht. subst. cbn [run].
  rewrite step_CallStart_client by done.
  unfold step. simpl. rewrite lookup_insert_eq, Hg.
  unfold settle, ret, with_tasks. simpl. by rewrite insert_insert_eq.
Qed.

(** X10: when the factory's promise is rejected, the call of [start] fails
    with that error and no field changes: the client handle stays as it was
    and the strategy made at line 93 stays in its field.  With no client
    set, the next call of [start] takes the creating branch again and calls
    the factory once more. *)
Theorem start_fails_with_factory_error st t r e u r' i' o' ver :
  tasks st !! t = Some (AwaitFactory r) ->
  languageClient (this st) = None ->
  tasks st !! u = None ->
  exists st1 st2,
    step env (FactoryRejected t e) st = Some st1
    /\ tasks st1 !! t = Some (Failed e)
    /\ this st1 = this st
    /\ gates st1 = gates st
    /\ trace st1 = trace st
    /\ run env [CallStart u r' i' o'; DirectoryResolved u ver] st1 = Some st2
    /\ factory_calls st2 = S (factory_calls st)
    /\ tasks st2 !! u = Some (AwaitFactory r').
Proof.
  intros Ht Hlc Hu. destruct_state st. simpl in Ht, Hlc, Hu. subst.
  assert (t <> u) as Hne by congruence.
  exists (mkState (mkFields None g cs ds dd v) gs cls n (<[t := Failed e]> tk) tr).
  eexists. split.
  { unfold step. simpl. rewrite Ht. reflexivity. }
  split; [apply lookup_insert_eq|]. do 3 (split; [done|]).
  cbn [run]. rewrite step_CallStart_no_client by by rewrite lookup_insert_ne.
  rewrite (step_DirectoryResolved env u r' i' o') by apply lookup_insert_eq.
  split; [reflexivity|]. simpl. split; [|apply lookup_insert_eq].
  unfold factory_calls. simpl. rewrite !count_events_app. simpl. lia.
Qed.

End Wiring.

(** ** Further properties of the telemetry relay *)

Section RelayMore.
Import Telemetry Slashes.

Lemma replace_slashes_no_slash s : no_slash (replace_slashes s) = true.
Proof.
  induction s as [|c s IH]; simpl; [done|].
  rewrite IH. by destruct (Ascii.eqb c "/") eqn:Hc; simpl; [|rewrite Hc].
Qed.

Lemma replace_slashes_unchanged s : no_slash s = true -> replace_slashes s = s.
Proof.
  induction s as [|c s IH]; simpl; [done|].
  intros [Hc Hs]%andb_true_iff. rewrite (IH Hs).
  by destruct (Ascii.eqb c "/").
Qed.

Context {Measurements : Type}.
Variable LANGUAGE_SERVER_TELEMETRY : string.

(** X12: whenever the relay sends an event, the properties it sends have a
    [method] key, and its value is either undefined or a string without any
    '/'. *)
Theorem relay_sends_no_slash (ev : @TelemetryEvent Measurements) sent :
  relay LANGUAGE_SERVER_TELEMETRY ev = Returned sent ->
  sent_properties sent !! "method" = Some JUndefined
  \/ exists s, sent_properties sent !! "method" = Some (JString s)
               /\ no_slash s = true.
Proof.
  unfold relay. destruct (Properties ev) as [props|]; [|done].
  destruct (get props "method") as [| |s|n]; simpl; try done.
  - intros [= <-]. left. apply lookup_insert_eq.
  - intros [= <-]. left. apply lookup_insert_eq.
  - intros [= <-]. right. exists (replace_slashes s).
    split; [apply lookup_insert_eq | apply replace_slashes_no_slash].
Qed.

(** X13: relaying what the relay has sent sends the same again: the event
    name, the measurements and every property, [method] included, are
    already in their final form. *)
Theorem relay_of_relayed (ev : @TelemetryEvent Measurements) sent :
  relay LANGUAGE_SERVER_TELEMETRY ev = Returned sent ->
  relay LANGUAGE_SERVER_TELEMETRY
    (mkTelemetryEvent (sent_eventName sent) (sent_measurements sent)
       (Some (sent_properties sent)))
  = Returned sent.
Proof.
  unfold relay. destruct (Properties ev) as [props|]; [|done]. simpl.
  assert ((if truthy (if truthy (EventName ev) then EventName ev
                      else JString LANGUAGE_SERVER_TELEMETRY)
           then (if truthy (EventName ev) then EventName ev
                 else JString LANGUAGE_SERVER_TELEMETRY)
           else JString LANGUAGE_SERVER_TELEMETRY)
          = (if truthy (EventName ev) then EventName ev
             else JString LANGUAGE_SERVER_TELEMETRY)) as Hname.
  { destruct (truthy (EventName ev)) eqn:Hn; [by rewrite Hn|].
    by destruct (truthy (JString LANGUAGE_SERVER_TELEMETRY)). }
  destruct (get props "method") as [| |s|n]; simpl; try done.
  all: intros [= <-]; simpl; unfold get; rewrite lookup_insert_eq; simpl.
  all: rewrite Hname, insert_insert_eq.
  all: rewrite ?(replace_slashes_unchanged (replace_slashes s))
         by apply replace_slashes_no_slash; done.
Qed.

(** A method without '/' is sent as it came. *)
Lemma relay_keeps_clean_method (ev : @TelemetryEvent Measurements) props m :
  Properties ev = Some props ->
  props !! "method" = Some (JString m) ->
  no_slash m = true ->
  exists sent,
    relay LANGUAGE_SERVER_TELEMETRY ev = Returned sent
    /\ sent_properties sent = props.
Proof.
  intros Hp Hm Hclean. unfold relay, get. rewrite Hp, Hm. simpl.
  eexists. split; [reflexivity|]. simpl.
  rewrite replace_slashes_unchanged by done. by apply insert_id.
Qed.

End RelayMore.

(** ** Further properties of the export checker *)

Section ExportMore.
Import ExportChecker.
Context {World Uri ExportFormat INotebookModel : Type}.
Variable manager_export : ExportFormat -> INotebookModel -> Eff World (option Uri).
Variable isImportSupported : Eff World bool.
Variable installMissingDependencies : Eff World unit.
Variable jupyterNbConvertNotSupported : string.

(** X14: whatever the injected objects answer or throw, [export] makes one of
    six sequences of calls: at most two checks, at most one install, and it
    comes right after the first check; at most one [manager.export], always
    the last call and right after a check. *)
Theorem export_call_sequences format model w log :
  exists calls,
    (export manager_export isImportSupported installMissingDependencies
       jupyterNbConvertNotSupported format model (w, log)).2.2 = log ++ calls
    /\ calls ∈ [ [IsImportSupported];
                 [IsImportSupported; IsImportSupported];
                 [IsImportSupported; IsImportSupported; ManagerExport format model];
                 [IsImportSupported; InstallMissingDependencies];
                 [IsImportSupported; InstallMissingDependencies; IsImportSupported];
                 [IsImportSupported; InstallMissingDependencies; IsImportSupported;
                  ManagerExport format model] ].
Proof.
  unfold export, bind, call, ret, throw. simpl.
  destruct (isImportSupported w) as [[[]|e1] w1]; simpl.
  - destruct (isImportSupported w1) as [[[]|e2] w2]; simpl.
    + destruct (manager_export format model w2). simpl.
      eexists. rewrite <- !app_assoc. split; [reflexivity|]. set_solver.
    + eexists. rewrite <- !app_assoc. split; [reflexivity|]. set_solver.
    + eexists. rewrite <- !app_assoc. split; [reflexivity|]. set_solver.
  - destruct (installMissingDependencies w1) as [[[]|e3] w1']; simpl.
    + destruct (isImportSupported w1') as [[[]|e2] w2]; simpl.
      * destruct (manager_export format model w2). simpl.
        eexists. rewrite <- !app_assoc. split; [reflexivity|]. set_solver.
      * eexists. rewrite <- !app_assoc. split; [reflexivity|]. set_solver.
      * eexists. rewrite <- !app_assoc. split; [reflexivity|]. set_solver.
    + eexists. rewrite <- !app_assoc. split; [reflexivity|]. set_solver.
  - eexists. split; [reflexivity|]. set_solver.
Qed.

(** X15: when the first check is false and the install throws, [export]
    ends with the install's error: there is no second check, the wrapped
    manager is not called, and the localized error is not raised. *)
Theorem export_install_failure format model w log w1 e w2 :
  isImportSupported w = (Returned false, w1) ->
  installMissingDependencies w1 = (Threw e, w2) ->
  export manager_export isImportSupported installMissingDependencies
    jupyterNbConvertNotSupported format model (w, log)
  = (Threw e, (w2, log ++ [IsImportSupported; InstallMissingDependencies])).
Proof.
  intros H1 H2. unfold export, bind, call, ret. simpl.
  rewrite H1. simpl. rewrite H2. simpl. by rewrite <- app_assoc.
Qed.

(** X18: the outcome of [export] is never invented: a value it returns is
    one [manager.export] returned, and an error is the localized one, raised
    after a check answered false, or one that an injected object threw. *)
Theorem export_outcome_origin format model w log :
  match (export manager_export isImportSupported installMissingDependencies
       jupyterNbConvertNotSupported format model (w, log)).1 with
  | Returned uri => exists w', (manager_export format model w').1 = Returned uri
  | Threw e =>
      e = jupyterNbConvertNotSupported
      \/ (exists w', (isImportSupported w').1 = Threw e)
      \/ (exists w', (installMissingDependencies w').1 = Threw e)
      \/ (exists w', (manager_export format model w').1 = Threw e)
  end.
Proof.
  unfold export, bind, call, ret, throw. simpl.
  destruct (isImportSupported w) as [[[]|e1] w1] eqn:H1; simpl.
  - destruct (isImportSupported w1) as [[[]|e2] w2] eqn:H2; simpl.
    + destruct (manager_export format model w2) as [[uri|e] w3] eqn:H3; simpl.
      * exists w2. by rewrite H3.
      * right. right. right. exists w2. by rewrite H3.
    + by left.
    + right. left. exists w1. by rewrite H2.
  - destruct (installMissingDependencies w1) as [[[]|e3] w1'] eqn:Hi; simpl.
    + destruct (isImportSupported w1') as [[[]|e2] w2] eqn:H2; simpl.
      * destruct (manager_export format model w2) as [[uri|e] w3] eqn:H3; simpl.
        -- exists w2. by rewrite H3.
        -- right. right. right. exists w2. by rewrite H3.
      * by left.
      * right. left. exists w1'. by rewrite H2.
    + right. right. left. exists w1. by rewrite Hi.
  - right. left. exists w. by rewrite H1.
Qed.

End ExportMore.

(** ** Witnesses for the further properties *)

Section SessionExamples.
Import Scenario.

Lemma disposed_is_permanent_witness :
  let st := after wired up_then_disposed in
  exists st', run wired second_call st = Some st' /\ disposed (this st') = true.
Proof.
  intros st.
  assert (run wired second_call st = Some (default st (run wired second_call st)))
    as Hrun by (vm_compute; reflexivity).
  eexists. split; [exact Hrun|].
  apply (disposed_is_permanent wired second_call st _); [|exact Hrun].
  vm_compute. reflexivity.
Defined.

Lemma no_wiring_once_disposed_witness :
  let st := after wired up_then_disposed in
  exists st',
    run wired second_call st = Some st'
    /\ tasks st' !! 1 = Some Completed
    /\ subsidiary_calls st' = subsidiary_calls st.
Proof.
  intros st.
  assert (run wired second_call st = Some (default st (run wired second_call st)))
    as Hrun by (vm_compute; reflexivity).
  eexists. split; [exact Hrun|]. split; [vm_compute; reflexivity|].
  apply (no_wiring_once_disposed wired second_call st _); [|exact Hrun].
  vm_compute. reflexivity.
Defined.

Lemma wiring_only_after_own_resolve_witness :
  let st := after wired session_up in
  wirings 0 st <= resolutions 0 st /\ resolutions 0 st <= 1.
Proof.
  intros st.
  apply (wiring_only_after_own_resolve wired session_up st 0).
  vm_compute. reflexivity.
Defined.

Lemma no_gate_is_ever_rejected_witness :
  let st := after wired (up_then_disposed ++ second_call) in
  exists d, gates st !! 0 = Some d /\ (d = Pending \/ d = Resolved).
Proof.
  intros st.
  destruct (no_gate_is_ever_rejected wired (up_then_disposed ++ second_call) st)
    as [H _]; [vm_compute; reflexivity |].
  exists Resolved. split; [vm_compute; reflexivity|].
  apply (H 0). vm_compute. reflexivity.
Defined.

Lemma gate_resolved_only_when_ready_witness :
  let st := after quiet (awaiting_factory ++ [ClientCreated 0; ClientInitialized 0]) in
  exists st',
    step quiet (TimerFired 0) st = Some st'
    /\ resolutions 0 st < resolutions 0 st'
    /\ clients st !! 0 = Some true.
Proof.
  intros st.
  assert (step quiet (TimerFired 0) st
          = Some (default st (step quiet (TimerFired 0) st)))
    as Hstep by (vm_compute; reflexivity).
  assert (resolutions 0 st < resolutions 0 (default st (step quiet (TimerFired 0) st)))
    as Hlt by (vm_compute; lia).
  eexists. split; [exact Hstep|]. split; [exact Hlt|].
  exact (gate_resolved_only_when_ready quiet (TimerFired 0) st _ 0 Hstep Hlt).
Defined.

Lemma waiter_released_by_next_poll_witness :
  let st := after quiet polling_with_waiter in
  exists st2,
    run quiet [TimerFired 0; Continue 1] (dispose quiet st).2 = Some st2
    /\ tasks st2 !! 1 = Some Completed.
Proof.
  intros st.
  destruct (waiter_released_by_next_poll quiet st (dispose quiet st).2 0 1 None)
    as (_ & st2 & Hrun & Hu & _).
  - vm_compute. reflexivity.
  - vm_compute. reflexivity.
  - vm_compute. reflexivity.
  - vm_compute. reflexivity.
  - exists st2. by split.
Defined.

Lemma start_wires_in_order_witness :
  let st := after wired ready_to_wire in
  exists st',
    step wired (Continue 0) st = Some st'
    /\ disposables (this st')
       = [TransportDisposable 0; ProgressReporting (Some 0); PathChangeSubscription 0].
Proof.
  intros st.
  destruct (start_wires_in_order wired st 0 None 0)
    as (st' & Hstep & Hds & _).
  - vm_compute. reflexivity.
  - vm_compute. reflexivity.
  - vm_compute. reflexivity.
  - exists st'. split; [exact Hstep|]. rewrite Hds. vm_compute. reflexivity.
Defined.

Lemma start_completes_when_activation_fails_witness :
  let st := after activation_fails ready_to_wire in
  exists st',
    run activation_fails [Continue 0; Continue 0] st = Some st'
    /\ tasks st' !! 0 = Some Completed
    /\ last (trace st')
       = Some (EvTraceError "Activating Unit Tests Manager for Language Server"
                 "activation failed").
Proof.
  intros st.
  destruct (start_completes_when_activation_fails activation_fails st 0 None 0)
    as (st' & Hrun & Ht & _ & Hlast).
  - vm_compute. reflexivity.
  - vm_compute. reflexivity.
  - vm_compute. reflexivity.
  - exists st'. split; [exact Hrun|]. split; [exact Ht|]. by apply Hlast.
Defined.

Lemma start_on_ready_session_witness :
  let st := after wired session_up in
  run wired [CallStart 1 None None options0; Continue 1] st
  = Some (with_tasks (<[1 := Completed]>) st).
Proof.
  intros st.
  apply (start_on_ready_session wired st 1 None None options0 0);
    vm_compute; reflexivity.
Defined.

Lemma start_fails_with_factory_error_witness :
  let st := after quiet awaiting_factory in
  exists st1 st2,
    step quiet (FactoryRejected 0 "spawn failed") st = Some st1
    /\ tasks st1 !! 0 = Some (Failed "spawn failed")
    /\ run quiet [CallStart 1 None None options0; DirectoryResolved 1 None] st1
       = Some st2
    /\ factory_calls st2 = 2.
Proof.
  intros st.
  destruct (start_fails_with_factory_error quiet st 0 None "spawn failed"
              1 None None options0 None)
    as (st1 & st2 & H1 & Ht & _ & _ & _ & H2 & Hf & _).
  - vm_compute. reflexivity.
  - vm_compute. reflexivity.
  - vm_compute. reflexivity.
  - exists st1, st2. split; [exact H1|]. split; [exact Ht|]. split; [exact H2|].
    rewrite Hf. vm_compute. reflexivity.
Defined.

End SessionExamples.

Lemma relay_sends_no_slash_witness :
  exists sent,
    Telemetry.relay "LANGUAGE_SERVER.EVENT" Telemetry.with_method = Returned sent
    /\ (Telemetry.sent_properties sent !! "method" = Some Telemetry.JUndefined
        \/ exists s, Telemetry.sent_properties sent !! "method"
                     = Some (Telemetry.JString s)
                     /\ Slashes.no_slash s = true).
Proof.
  eexists. split; [reflexivity|].
  exact (relay_sends_no_slash "LANGUAGE_SERVER.EVENT" Telemetry.with_method _ eq_refl).
Defined.

Lemma relay_of_relayed_witness :
  exists sent,
    Telemetry.relay "LANGUAGE_SERVER.EVENT" Telemetry.without_method = Returned sent
    /\ Telemetry.relay "LANGUAGE_SERVER.EVENT"
         (Telemetry.mkTelemetryEvent (Telemetry.sent_eventName sent)
            (Telemetry.sent_measurements sent)
            (Some (Telemetry.sent_properties sent)))
       = Returned sent.
Proof.
  eexists. split; [reflexivity|].
  exact (relay_of_relayed "LANGUAGE_SERVER.EVENT" Telemetry.without_method _ eq_refl).
Defined.

Lemma export_install_failure_witness :
  ExportChecker.export ExportChecker.Installable.manager_export
    ExportChecker.Installable.isImportSupported
    (fun w => (Threw "pip failed", w))
    "Jupyter nbconvert is not installed"
    ExportChecker.Installable.html "notebook" (false, [])
  = (Threw "pip failed",
     (false, [ExportChecker.IsImportSupported;
              ExportChecker.InstallMissingDependencies])).
Proof.
  exact (export_install_failure ExportChecker.Installable.manager_export
           ExportChecker.Installable.isImportSupported
           (fun w => (Threw "pip failed", w))
           "Jupyter nbconvert is not installed"
           ExportChecker.Installable.html "notebook" false [] false "pip failed" false
           eq_refl eq_refl).
Defined.
